(** * Bati-Bank credit scoring: the exploratory data analyzer

    A shallow embedding of [scripts/exploratory_data_analyzer.py]
    (class [EDAAnalyzer]) together with the properties of its operations.

    Conventions of the embedding.

    - A pandas float cell is an [f64]: [Some q] for a finite value [q]
      (every finite float is a rational), [None] for NaN.  Arithmetic is the
      exact arithmetic of the rationals, NaN is absorbing, and every
      comparison with NaN is false, as in IEEE 754; rounding error and
      infinities of the machine format are not represented.
    - A [DataFrame] is the ordered list of its named columns, a column being
      numeric (float cells) or of dtype object (string cells, [None] when
      missing); boolean columns are not represented.  A pandas [Series] is
      the ordered list of its labelled values.
    - A Python exception is a value of [exn]; code that can raise returns a
      [result].
    - A method of the analyzer runs in a state-and-exception monad over a
      [World]: the analyzer object, the text printed so far and the calls
      made so far on the graphics context, the last two as traces that only
      grow.  A bar chart is taken to be drawn on axes without earlier
      patches, so that [ax.patches] are the bars of that chart; the current
      figure that pyplot keeps between calls is not represented.
    - The pandas primitives that take square roots (skewness, correlation)
      and the two text renderings are parameters, see [Primitives]. *)

From Stdlib Require Import String QArith Qround ZArith List Bool Arith Lia Lqa.
From Stdlib Require Import DecimalString.
From Stdlib Require Import Permutation Sorted.
Import ListNotations.

Local Open Scope Q_scope.

(* ================================================================== *)
(** ** Float cells *)

Definition f64 := option Q.

Definition NaN : f64 := None.

Definition Qltb (x y : Q) : bool := negb (Qle_bool y x).

Definition flift2 (op : Q -> Q -> Q) (a b : f64) : f64 :=
  match a, b with
  | Some x, Some y => Some (op x y)
  | _, _ => NaN
  end.

Definition fadd := flift2 Qplus.
Definition fsub := flift2 Qminus.
Definition fmul := flift2 Qmult.

(** [a < b] and [a > b] on cells: false as soon as one side is NaN. *)
Definition flt (a b : f64) : bool :=
  match a, b with
  | Some x, Some y => Qltb x y
  | _, _ => false
  end.

Definition fgt (a b : f64) : bool := flt b a.

Definition isna {A} (a : option A) : bool :=
  match a with None => true | Some _ => false end.

Definition notna {A} (a : option A) : bool := negb (isna a).


(* ================================================================== *)
(** ** Frames and series *)

Inductive Column :=
| NumCol (values : list f64)
| ObjCol (values : list (option string)).

Definition DataFrame := list (string * Column).

Definition Series (A : Type) := list (string * A).

Definition keys {A} (s : list (string * A)) : list string := map fst s.

Definition col_len (c : Column) : nat :=
  match c with
  | NumCol v => length v
  | ObjCol v => length v
  end.

(** Every column of a frame has the length of the frame's index; the number
    of rows is read off the first column. *)
Definition nrows (df : DataFrame) : nat :=
  match df with
  | [] => O
  | (_, c) :: _ => col_len c
  end.


(** Label lookup, first match. *)
Fixpoint lookup {A} (k : string) (s : list (string * A)) : option A :=
  match s with
  | [] => None
  | (k', v) :: t => if String.eqb k' k then Some v else lookup k t
  end.

(** [s[k]] on a float series; an absent label reads as NaN (label alignment
    fills with NaN). *)
Definition at_label (k : string) (s : Series f64) : f64 :=
  match lookup k s with
  | Some v => v
  | None => NaN
  end.

(** [df._get_numeric_data()]: the numeric columns, in frame order. *)
Definition get_numeric_data (df : DataFrame) : list (string * list f64) :=
  flat_map (fun p => match snd p with
                     | NumCol v => [(fst p, v)]
                     | ObjCol _ => []
                     end) df.

(** [df[names]] on numeric columns: for each requested name, every column
    carrying that name. *)
Definition select_numeric (names : list string) (df : DataFrame)
  : list (string * list f64) :=
  flat_map (fun n => filter (fun p => String.eqb (fst p) n)
                            (get_numeric_data df)) names.

(** [df[name]] as a float column. *)
Definition num_column (name : string) (df : DataFrame) : list f64 :=
  match lookup name df with
  | Some (NumCol v) => v
  | _ => []
  end.

(* ================================================================== *)
(** ** Quantiles (pandas [quantile], interpolation ['linear']) *)

Fixpoint insert (x : Q) (l : list Q) : list Q :=
  match l with
  | [] => [x]
  | y :: t => if Qle_bool x y then x :: l else y :: insert x t
  end.

Definition sort (l : list Q) : list Q := fold_right insert [] l.

Fixpoint dropna (v : list f64) : list Q :=
  match v with
  | [] => []
  | Some x :: t => x :: dropna t
  | None :: t => dropna t
  end.

(** Linear interpolation inside the sorted sample [s] at the virtual index
    [(n-1) * q]: the two neighbours are [s[lo]] and [s[min (lo+1) (n-1)]]. *)
Definition interpolate (q : Q) (s : list Q) : f64 :=
  match s with
  | [] => NaN
  | x0 :: _ =>
      let n := length s in
      let pos := inject_Z (Z.of_nat (n - 1)) * q in
      let lo := Z.to_nat (Qfloor pos) in
      let hi := Nat.min (lo + 1) (n - 1) in
      let frac := pos - inject_Z (Qfloor pos) in
      let a := nth lo s x0 in
      let b := nth hi s x0 in
      Some (a + (b - a) * frac)
  end.

Definition quantile (q : Q) (v : list f64) : f64 :=
  interpolate q (sort (dropna v)).

(** [DataFrame.quantile(q)]: one value per column, labelled by the column. *)
Definition df_quantile (q : Q) (nd : list (string * list f64)) : Series f64 :=
  map (fun p => (fst p, quantile q (snd p))) nd.

(** Label-aligned binary operation of two series. *)
Definition series_op (op : f64 -> f64 -> f64) (a b : Series f64) : Series f64 :=
  map (fun p => (fst p, op (snd p) (at_label (fst p) b))) a.

Definition series_scale (c : Q) (a : Series f64) : Series f64 :=
  map (fun p => (fst p, fmul (Some c) (snd p))) a.

(* ================================================================== *)
(** ** [count_outliers]: cut-offs and counts *)

Fixpoint insert_by_count (x : string * nat) (l : list (string * nat)) :=
  match l with
  | [] => [x]
  | y :: t => if Nat.leb (snd x) (snd y) then x :: l else y :: insert_by_count x t
  end.

(** [sort_values(by='Num. of Outliers')]; rows with equal counts stay in the
    order they had (pandas leaves their order to the sorting routine). *)
Definition sort_by_count (l : list (string * nat)) : list (string * nat) :=
  fold_right insert_by_count [] l.

(** [Series.unique()] on labels: first occurrences, order kept. *)
Fixpoint unique_labels (l : list string) : list string :=
  match l with
  | [] => []
  | x :: t => x :: filter (fun y => negb (String.eqb x y)) (unique_labels t)
  end.

(** The boolean mask
    [(data[column] < lower_bound[column]) | (data[column] > upper_bound[column])]. *)
Definition outlier_mask (lo hi : f64) (v : list f64) : list bool :=
  map (fun x => flt x lo || fgt x hi) v.

(** [data[mask].shape[0]]. *)
Definition mask_rows (m : list bool) : nat := length (filter (fun b => b) m).

Record OutlierReport := {
  or_lower : Series f64;
  or_upper : Series f64;
  or_table : list (string * nat);   (* the frame handed to the bar plot *)
  or_texts : list (option nat)      (* the annotation written on each bar *)
}.

Definition outlier_report (data : DataFrame) : OutlierReport :=
  let numerical_columns := keys (get_numeric_data data) in
  let numerical_data := select_numeric numerical_columns data in
  let quartile_one := df_quantile (1 # 4) numerical_data in
  let quartile_three := df_quantile (3 # 4) numerical_data in
  let iqr := series_op fsub quartile_three quartile_one in
  let upper_bound := series_op fadd quartile_three (series_scale (3 # 2) iqr) in
  let lower_bound := series_op fsub quartile_one (series_scale (3 # 2) iqr) in
  let outliers :=
    map (fun column =>
           let mask := outlier_mask (at_label column lower_bound)
                                    (at_label column upper_bound)
                                    (num_column column data) in
           (column, mask_rows mask))
        (keys lower_bound) in
  let outliers := sort_by_count outliers in
  let columns := unique_labels (keys outliers) in
  {| or_lower := lower_bound;
     or_upper := upper_bound;
     or_table := outliers;
     or_texts := map (fun c => lookup c outliers) columns |}.

(* ================================================================== *)
(** ** [missing_values] *)

(** [df.isna()], one column. *)
Definition col_isna (c : Column) : list bool :=
  match c with
  | NumCol v => map isna v
  | ObjCol v => map isna v
  end.

Definition count_true (m : list bool) : nat := length (filter (fun b => b) m).

(** [mean()] of a boolean column; the mean of no rows is NaN. *)
Definition bool_mean (m : list bool) : f64 :=
  match m with
  | [] => NaN
  | _ :: _ => Some (inject_Z (Z.of_nat (count_true m))
                    / inject_Z (Z.of_nat (length m)))
  end.

(** [missing = data.isna().mean() * 100; missing = missing[missing > 0]]. *)
Definition missing_report (data : DataFrame) : Series f64 :=
  let missing := map (fun p => (fst p, fmul (bool_mean (col_isna (snd p)))
                                            (Some 100))) data in
  filter (fun p => fgt (snd p) (Some 0)) missing.

(* ================================================================== *)
(** ** Rounding and value sorting of float series *)

(** Round half to even, the rule of [numpy.round]. *)
Definition round_half_even (x : Q) : Z :=
  let f := Qfloor x in
  let r := x - inject_Z f in
  if Qltb r (1 # 2) then f
  else if Qltb (1 # 2) r then (f + 1)%Z
  else if Z.even f then f else (f + 1)%Z.

(** [round(decimals=3)]. *)
Definition round3 (a : f64) : f64 :=
  match a with
  | Some x => Some (inject_Z (round_half_even (x * 1000)) / 1000)
  | None => NaN
  end.

Fixpoint insert_by_value (x : string * Q) (l : list (string * Q)) :=
  match l with
  | [] => [x]
  | y :: t => if Qle_bool (snd x) (snd y) then x :: l
              else y :: insert_by_value x t
  end.

Fixpoint present (s : Series f64) : list (string * Q) :=
  match s with
  | [] => []
  | (k, Some x) :: t => (k, x) :: present t
  | (_, None) :: t => present t
  end.

(** [Series.sort_values()]: present values ascending, NaN entries last;
    equal values stay in the order they had. *)
Definition sort_values (s : Series f64) : Series f64 :=
  map (fun p => (fst p, Some (snd p))) (fold_right insert_by_value [] (present s))
  ++ filter (fun p => isna (snd p)) s.

(** Ascending order on cells with NaN after every number. *)
Definition fle (a b : f64) : Prop :=
  match a, b with
  | Some x, Some y => x <= y
  | _, None => True
  | None, Some _ => False
  end.

(* ================================================================== *)
(** ** Statistical primitives of pandas that leave the rationals

    Skewness, standard deviation and Pearson correlation take square roots;
    their float results are taken as given functions of the columns, and so
    are the two text renderings that the overview and the summary print. *)

Class Primitives := {
  skew : list f64 -> f64;                 (* [Series.skew] *)
  pearson : list f64 -> list f64 -> f64;  (* one cell of [DataFrame.corr] *)
  info_text : DataFrame -> string;        (* what [DataFrame.info] writes *)
  describe_text : DataFrame -> string     (* [repr(DataFrame.describe())] *)
}.

(* ================================================================== *)
(** ** [describe_skewness]: the plotted series *)

Record SkewPlot := {
  sk_bars : Series f64;      (* the series handed to the bar plot *)
  sk_texts : list f64        (* the annotation written on each bar *)
}.

Definition skewness_plot `{Primitives} (data : DataFrame) : SkewPlot :=
  let skewness_data :=
    map (fun p => (fst p, round3 (snd p)))
        (sort_values (map (fun p => (fst p, skew (snd p)))
                          (get_numeric_data data))) in
  let columns := keys skewness_data in
  {| sk_bars := skewness_data;
     sk_texts := map (fun idx => at_label (nth idx columns EmptyString)
                                          skewness_data)
                     (seq 0 (length skewness_data)) |}.

(* ================================================================== *)
(** ** Grouping by a column *)

Inductive Cell :=
| CNum (q : Q)
| CStr (s : string).

Definition cell_eqb (a b : Cell) : bool :=
  match a, b with
  | CNum x, CNum y => Qeq_bool x y
  | CStr x, CStr y => String.eqb x y
  | _, _ => false
  end.

Definition cell_leb (a b : Cell) : bool :=
  match a, b with
  | CNum x, CNum y => Qle_bool x y
  | CStr x, CStr y => String.leb x y
  | CNum _, CStr _ => true
  | CStr _, CNum _ => false
  end.

(** The present cells of a column, as group keys. *)
Definition present_cells (c : Column) : list Cell :=
  match c with
  | NumCol v => map CNum (dropna v)
  | ObjCol v => flat_map (fun o => match o with
                                   | Some s => [CStr s]
                                   | None => []
                                   end) v
  end.

Fixpoint uniq (l : list Cell) : list Cell :=
  match l with
  | [] => []
  | x :: t => x :: filter (fun y => negb (cell_eqb x y)) (uniq t)
  end.

Fixpoint insert_key (x : Cell) (l : list Cell) : list Cell :=
  match l with
  | [] => [x]
  | y :: t => if cell_leb x y then x :: l else y :: insert_key x t
  end.

Fixpoint insert_by_size (x : Cell * nat) (l : list (Cell * nat)) :=
  match l with
  | [] => [x]
  | y :: t => if Nat.leb (snd x) (snd y) then x :: l
              else y :: insert_by_size x t
  end.

Definition group_count (k : Cell) (l : list Cell) : nat :=
  length (filter (cell_eqb k) l).

(** [groupby(by=column).size()]: one entry per distinct present key, keys
    ascending. *)
Definition groupby_size (c : Column) : list (Cell * nat) :=
  let cells := present_cells c in
  map (fun k => (k, group_count k cells))
      (fold_right insert_key [] (uniq cells)).

(** [.sort_values()] on the sizes; equal sizes stay in key order. *)
Definition sort_sizes (l : list (Cell * nat)) : list (Cell * nat) :=
  fold_right insert_by_size [] l.

Fixpoint lookup_cell {A} (k : Cell) (s : list (Cell * A)) : option A :=
  match s with
  | [] => None
  | (k', v) :: t => if cell_eqb k' k then Some v else lookup_cell k t
  end.

(* ================================================================== *)
(** ** Exceptions *)

Inductive exn :=
| KeyError (key : string)
| ValueError (msg : string)
| TypeError (msg : string)
| AttributeError (msg : string)
| NameError (name : string)
| ZeroDivisionError.

Inductive result (A : Type) :=
| Ok (a : A)
| Raise (e : exn).

Arguments Ok {A} a.
Arguments Raise {A} e.

Definition rbind {A B} (r : result A) (f : A -> result B) : result B :=
  match r with
  | Ok a => f a
  | Raise e => Raise e
  end.

Fixpoint rmap {A B} (f : A -> result B) (l : list A) : result (list B) :=
  match l with
  | [] => Ok []
  | x :: t => rbind (f x) (fun y => rbind (rmap f t) (fun ys => Ok (y :: ys)))
  end.

(** [df[name]] / [groupby(by=name)]: the column, or [KeyError]. *)
Definition get_column (name : string) (df : DataFrame) : result Column :=
  match lookup name df with
  | Some c => Ok c
  | None => Raise (KeyError name)
  end.

(* ================================================================== *)
(** ** [fraud_analysis]: quantile bins of the fraudulent amounts *)

(** Rows of the group [FraudResult == 1]. *)
Definition fraud_mask (c : Column) : list bool :=
  match c with
  | NumCol v => map (fun x => match x with
                              | Some q => Qeq_bool q 1
                              | None => false
                              end) v
  | ObjCol v => map (fun _ => false) v
  end.

Fixpoint take_rows {A} (m : list bool) (v : list A) : list A :=
  match m, v with
  | b :: m', x :: v' => if b then x :: take_rows m' v' else take_rows m' v'
  | _, _ => []
  end.

(** [sort_values(by='Amount', ascending=True)] seen on the amount column. *)
Definition sort_cells (v : list f64) : list f64 :=
  map Some (sort (dropna v)) ++ filter isna v.

(** [numpy.linspace(0, 1, q + 1)]. *)
Definition linspace (q : nat) : list Q :=
  map (fun i => inject_Z (Z.of_nat i) / inject_Z (Z.of_nat q)) (seq 0 (q + 1)).

(** Equality of cells where NaN matches NaN (pandas [unique]). *)
Definition feqb (a b : f64) : bool :=
  match a, b with
  | Some x, Some y => Qeq_bool x y
  | None, None => true
  | _, _ => false
  end.

(** Float [==]: NaN equals nothing. *)
Definition feq_ieee (a b : f64) : bool :=
  match a, b with
  | Some x, Some y => Qeq_bool x y
  | _, _ => false
  end.

(** [algos.unique]: first occurrences, order kept. *)
Fixpoint unique (l : list f64) : list f64 :=
  match l with
  | [] => []
  | x :: t => x :: filter (fun y => negb (feqb x y)) (unique t)
  end.

(** [bins.searchsorted(v, side='left')] on ascending bins: the number of
    edges strictly below [v]. *)
Definition searchsorted_left (bins : list f64) (v : f64) : nat :=
  length (filter (fun b => flt b v) bins).

(** The category code of one value in [_bins_to_cuts] with [right=True],
    [include_lowest=True]; [None] is the NaN category. *)
Definition bin_code (bins : list f64) (v : f64) : option nat :=
  let ids := searchsorted_left bins v in
  let ids := if feq_ieee v (hd NaN bins) then 1%nat else ids in
  let na_mask := isna v || Nat.eqb ids (length bins) || Nat.eqb ids 0 in
  if na_mask then None else Some (ids - 1)%nat.

(** [pd.qcut(x, q, duplicates='drop', retbins=True)]: the codes of the
    values and the edges that were kept.  The interval categories number
    [len(bins) - 1]. *)
Definition qcut (x : list f64) (q : nat) : list (option nat) * list f64 :=
  let quantiles := linspace q in
  let bins := map (fun p => quantile p x) quantiles in
  let unique_bins := unique bins in
  let bins :=
    if Nat.ltb (length unique_bins) (length bins)
       && negb (Nat.eqb (length bins) 2)
    then unique_bins else bins in
  (map (bin_code bins) x, bins).

(** Python [int()] on a float: truncation toward zero. *)
Definition trunc (x : Q) : Z := Z.quot (Qnum x) (Zpos (Qden x)).

Definition py_int (a : f64) : result Z :=
  match a with
  | Some x => Ok (trunc x)
  | None => Raise (ValueError "cannot convert float NaN to integer")
  end.

Record BinLabel := { lab_lo : Z; lab_hi : Z }.

(** [f"{int(lo)} UGX - {int(hi)} UGX"]. *)
Definition label_text (l : BinLabel) : string :=
  NilZero.string_of_int (Z.to_int (lab_lo l)) ++ " UGX - "
  ++ NilZero.string_of_int (Z.to_int (lab_hi l)) ++ " UGX".

(** The pairs [(bin_edges[i], bin_edges[i+1])], [i] in
    [range(len(bin_edges) - 1)]. *)
Definition edge_pairs (edges : list f64) : list (f64 * f64) :=
  combine edges (tl edges).

Definition make_label (p : f64 * f64) : result BinLabel :=
  rbind (py_int (fst p)) (fun lo =>
  rbind (py_int (snd p)) (fun hi =>
  Ok {| lab_lo := lo; lab_hi := hi |})).

Fixpoint has_dup (l : list string) : bool :=
  match l with
  | [] => false
  | x :: t => existsb (String.eqb x) t || has_dup t
  end.

(** [cat.rename_categories(new)]: the new names must be as many as the
    categories and pairwise distinct. *)
Definition rename_categories (ncat : nat) (new : list string)
  : result (list string) :=
  if negb (Nat.eqb (length new) ncat) then
    Raise (ValueError "new categories need to have the same number of items as the old categories")
  else if has_dup new then
    Raise (ValueError "Categorical categories must be unique")
  else Ok new.

Definition code_count (codes : list (option nat)) (i : nat) : nat :=
  length (filter (fun c => match c with
                           | Some j => Nat.eqb j i
                           | None => false
                           end) codes).

(** [value_counts().sort_index()] of a categorical: one count per category,
    in category order, NaN codes left out. *)
Definition value_counts (cats : list string) (codes : list (option nat))
  : list (string * nat) :=
  map (fun ic => (snd ic, code_count codes (fst ic)))
      (combine (seq 0 (length cats)) cats).

Record FraudBins := {
  fb_fraud : list f64;               (* fraud['Amount'] *)
  fb_edges : list f64;               (* bin_edges *)
  fb_labels : list BinLabel;         (* bin_labels, before formatting *)
  fb_counts : list (string * nat);   (* bin_counts *)
  fb_texts : list (option nat)       (* the annotation written on each bar *)
}.

Definition fraud_bins (data : DataFrame) : result FraudBins :=
  rbind (get_column "FraudResult" data) (fun fraud_result =>
  let mask := fraud_mask fraud_result in
  if Nat.eqb (count_true mask) 0 then Raise (KeyError "1") else
  rbind (get_column "Amount" data) (fun amount =>
  match amount with
  | ObjCol _ => Raise (TypeError "unsupported operand type(s) for -: 'str' and 'str'")
  | NumCol v =>
      let fraud_amount := sort_cells (take_rows mask v) in
      let num_bins := 10%nat in
      let '(codes, bin_edges) := qcut fraud_amount num_bins in
      rbind (rmap make_label (edge_pairs bin_edges)) (fun bin_labels =>
      rbind (rename_categories (length bin_edges - 1)
                               (map label_text bin_labels)) (fun cats =>
      let bin_counts := value_counts cats codes in
      let columns := keys bin_counts in
      Ok {| fb_fraud := fraud_amount;
            fb_edges := bin_edges;
            fb_labels := bin_labels;
            fb_counts := bin_counts;
            fb_texts := map (fun c => lookup c bin_counts) columns |}))
  end)).

(* ================================================================== *)
(** ** The analyzer object, the text stream and the graphics context *)

Record EDAAnalyzer := { data : DataFrame }.

(** [EDAAnalyzer.__init__]. *)
Definition init (d : DataFrame) : EDAAnalyzer := {| data := d |}.

Inductive Printed :=
| PShape (rows cols : nat)
| PText (s : string)
| PNone
| PMissing (missing : Series f64).

Inductive Axes :=
| Gca              (* the current axes, for calls without [ax=] *)
| Grid (i : nat).  (* [axes[i]] of the grid made by [plt.subplots] *)

Inductive Val :=
| VFloat (x : f64)
| VInt (n : nat)
| VMissing.

Inductive Draw :=
| Subplots (ncols nrows : nat)
| Histplot (ax : Axes) (column : string) (values : list f64) (bins : nat)
| Axvline (ax : Axes) (x : f64) (label : string)
| Legend (ax : Axes)
| Barplot (ax : Axes) (bars : list (Cell * Val))
| Heatmap (matrix : list (string * Series f64))
| Boxplot (frame : DataFrame)
| SetTitle (ax : Axes) (t : string)
| SetXlabel (ax : Axes) (t : string)
| SetYlabel (ax : Axes) (t : string)
| TickParams (ax : Axes) (labelrotation : nat)
| Text (ax : Axes) (bar : nat) (s : Val)
| Delaxes (ax : Axes)
| Suptitle (t : string)
| TightLayout
| PltShow.

Record World := {
  self : EDAAnalyzer;
  stdout : list Printed;
  canvas : list Draw
}.

(** Methods run in a state-and-exception monad over the world; the state
    reached when an exception is raised is kept. *)
Definition M (A : Type) := World -> result A * World.

Definition ret {A} (a : A) : M A := fun w => (Ok a, w).

Definition bind {A B} (m : M A) (f : A -> M B) : M B :=
  fun w => match m w with
           | (Ok a, w') => f a w'
           | (Raise e, w') => (Raise e, w')
           end.

Definition raise {A} (e : exn) : M A := fun w => (Raise e, w).

Definition lift {A} (r : result A) : M A := fun w => (r, w).

Notation "x <- m ;; k" := (bind m (fun x => k))
  (at level 61, m at next level, right associativity).
Notation "m ;;; k" := (bind m (fun _ => k))
  (at level 61, right associativity).

(** [self.data]. *)
Definition self_data : M DataFrame := fun w => (Ok (data (self w)), w).

Definition print (p : Printed) : M unit :=
  fun w => (Ok tt, {| self := self w;
                      stdout := stdout w ++ [p];
                      canvas := canvas w |}).

Definition draw (d : Draw) : M unit :=
  fun w => (Ok tt, {| self := self w;
                      stdout := stdout w;
                      canvas := canvas w ++ [d] |}).

(** [for idx, x in enumerate(l): body].  The body returns the value the
    variable [idx] holds when the iteration ends; the loop returns the value
    it holds afterwards, [prev] when the list is empty. *)
Fixpoint for_enumerate {A} (i : nat) (l : list A) (body : nat -> A -> M nat)
         (prev : option nat) : M (option nat) :=
  match l with
  | [] => ret prev
  | x :: t => idx <- body i x ;; for_enumerate (S i) t body (Some idx)
  end.

Fixpoint for_each {A} (l : list A) (body : A -> M unit) : M unit :=
  match l with
  | [] => ret tt
  | x :: t => body x ;;; for_each t body
  end.

(** Reading a local variable that a loop may have left unbound. *)
Definition local (name : string) (v : option nat) : M nat :=
  match v with
  | Some n => ret n
  | None => raise (NameError name)
  end.

(** [math.ceil(n ** 0.5)] and [math.ceil(n / d)]. *)
Definition ceil_sqrt (n : nat) : nat := Nat.sqrt_up n.

Definition ceil_div (n d : nat) : result nat :=
  match d with
  | O => Raise ZeroDivisionError
  | S _ => Ok ((n + d - 1) / d)%nat
  end.

(** [fig, axes = plt.subplots(ncols, nrows); axes = axes.flatten()]: a single
    cell yields one Axes object, which has no [flatten]. *)
Definition subplots (ncols nrows : nat) : M (list Axes) :=
  if Nat.eqb ncols 0 || Nat.eqb nrows 0 then
    raise (ValueError "Number of rows and columns must be a positive integer")
  else
    draw (Subplots ncols nrows) ;;;
    if Nat.eqb (ncols * nrows) 1 then
      raise (AttributeError "'Axes' object has no attribute 'flatten'")
    else ret (map Grid (seq 0 (ncols * nrows))).

(** [range(a, b)]. *)
Definition range (a b : nat) : list nat := seq a (b - a).

(** [sns.barplot]: draws one patch per bar on a fresh axes and returns the
    number of patches of that axes. *)
Definition barplot (ax : Axes) (bars : list (Cell * Val)) : M nat :=
  draw (Barplot ax bars) ;;; ret (length bars).

(** [for idx, patch in enumerate(ax.patches): ax.text(..., s=value)]. *)
Definition annotate (ax : Axes) (patches : nat) (value : nat -> Val)
           (prev : option nat) : M (option nat) :=
  for_enumerate 0 (seq 0 patches)
    (fun idx _ => draw (Text ax idx (value idx)) ;;; ret idx) prev.

Definition opt_int (o : option nat) : Val :=
  match o with
  | Some n => VInt n
  | None => VMissing
  end.

(** [Series.mean()] and [Series.median()] skip NaN. *)
Definition fmean (v : list f64) : f64 :=
  match dropna v with
  | [] => NaN
  | x :: t => Some (fold_right Qplus 0 (x :: t)
                    / inject_Z (Z.of_nat (length (x :: t))))
  end.

Definition fmedian (v : list f64) : f64 := quantile (1 # 2) v.

(* ================================================================== *)
(** ** The operations of [EDAAnalyzer] *)

Section Operations.

Context `{Primitives}.

Definition basic_overview : M unit :=
  d <- self_data ;;
  print (PShape (nrows d) (length d)) ;;;
  print (PText (info_text d)) ;;;
  print PNone.

Definition summary_statistics : M unit :=
  d <- self_data ;;
  print (PText (describe_text d)).

Definition missing_values : M unit :=
  d <- self_data ;;
  print (PMissing (missing_report d)).

(** One turn of the loop over the numeric columns. *)
Definition numerical_chart (axes : list Axes) (idx : nat) (column : string)
  : M nat :=
  d <- self_data ;;
  let median := fmedian (num_column column d) in
  let mean := fmean (num_column column d) in
  let ax := nth idx axes Gca in
  draw (Histplot ax column (num_column column d) 15) ;;;
  draw (SetTitle ax ("Distribution plot of " ++ column)) ;;;
  draw (SetXlabel ax column) ;;;
  draw (SetYlabel ax "Frequency") ;;;
  draw (Axvline ax mean "Mean") ;;;
  draw (Axvline ax median "Median") ;;;
  draw (Legend ax) ;;;
  ret idx.

Definition numerical_distribution : M unit :=
  d <- self_data ;;
  let numerical_data := get_numeric_data d in
  let numerical_cols := keys numerical_data in
  let num_cols := ceil_sqrt (length numerical_cols) in
  num_rows <- lift (ceil_div (length numerical_cols) num_cols) ;;
  axes <- subplots num_cols num_rows ;;
  idx <- for_enumerate 0 numerical_cols (numerical_chart axes) None ;;
  idx <- local "idx" idx ;;
  for_each (range (idx + 1) (length axes))
           (fun unused => draw (Delaxes (nth unused axes Gca))) ;;;
  draw TightLayout ;;;
  draw PltShow.

Definition describe_skewness : M unit :=
  d <- self_data ;;
  let plot := skewness_plot d in
  patches <- barplot Gca (map (fun p => (CStr (fst p), VFloat (snd p)))
                              (sk_bars plot)) ;;
  draw (SetTitle Gca "Plot of Skewness values of Numerical Columns") ;;;
  draw (SetXlabel Gca "Numerical Columns") ;;;
  draw (SetYlabel Gca "Skewness") ;;;
  draw (TickParams Gca 45) ;;;
  annotate Gca patches (fun idx => VFloat (nth idx (sk_texts plot) NaN)) None ;;;
  ret tt.

Definition columns_of_interest : list string :=
  ["CurrencyCode"; "ProviderId"; "ProductCategory"; "ChannelId"]%string.

(** The value written on bar [idx] of a chart:
    [grouping_counts[category_values[idx]]]. *)
Definition bar_text (grouping_counts : list (Cell * nat)) (idx : nat) : Val :=
  match nth_error (map fst grouping_counts) idx with
  | Some k => opt_int (lookup_cell k grouping_counts)
  | None => VMissing
  end.

(** One turn of the loop over [columns_of_interest]; the inner loop binds
    [idx] again, and the turn returns the value [idx] is left with. *)
Definition categorical_chart (axes : list Axes) (idx : nat) (column : string)
  : M nat :=
  d <- self_data ;;
  column_grouping <- lift (get_column column d) ;;
  let grouping_counts := sort_sizes (groupby_size column_grouping) in
  let sns_plot := nth idx axes Gca in
  patches <- barplot sns_plot
               (map (fun p => (fst p, VInt (snd p))) grouping_counts) ;;
  draw (TickParams sns_plot 45) ;;;
  draw (SetYlabel sns_plot "Count") ;;;
  draw (SetXlabel sns_plot column) ;;;
  idx <- annotate sns_plot patches (bar_text grouping_counts) (Some idx) ;;
  local "idx" idx.

Definition categorical_distribution : M unit :=
  let num_columns := ceil_sqrt (length columns_of_interest) in
  num_rows <- lift (ceil_div (length columns_of_interest) num_columns) ;;
  axes <- subplots num_columns num_rows ;;
  idx <- for_enumerate 0 columns_of_interest (categorical_chart axes) None ;;
  idx <- local "idx" idx ;;
  for_each (range (idx + 1) (length columns_of_interest))
           (fun unused => draw (Delaxes (nth unused axes Gca))) ;;;
  draw (Suptitle "Distribution of Categorical Columns") ;;;
  draw TightLayout.

(** [DataFrame.corr()] on the numeric columns. *)
Definition corr (nd : list (string * list f64)) : list (string * Series f64) :=
  map (fun a => (fst a, map (fun b => (fst b, pearson (snd a) (snd b))) nd)) nd.

Definition correlation_analysis : M unit :=
  d <- self_data ;;
  let correlation_matrix := corr (get_numeric_data d) in
  draw (Heatmap correlation_matrix) ;;;
  draw (SetTitle Gca "Correlation Matrix Heatmap").

Definition outlire_detection : M unit :=
  d <- self_data ;;
  draw (Boxplot d) ;;;
  draw (SetTitle Gca "Box-plot of Categorical Variables") ;;;
  draw (SetXlabel Gca "Numerical Columns") ;;;
  draw (SetYlabel Gca "Values").

Definition count_outliers : M unit :=
  d <- self_data ;;
  let report := outlier_report d in
  patches <- barplot Gca (map (fun p => (CStr (fst p), VInt (snd p)))
                              (or_table report)) ;;
  draw (SetTitle Gca "Plot of Skewness values of Numerical Columns") ;;;
  draw (SetXlabel Gca "Numerical Columns") ;;;
  draw (SetYlabel Gca "Num. of Outliers") ;;;
  draw (TickParams Gca 45) ;;;
  annotate Gca patches
           (fun idx => opt_int (nth idx (or_texts report) None)) None ;;;
  ret tt.

Definition fraud_analysis : M unit :=
  d <- self_data ;;
  bins <- lift (fraud_bins d) ;;
  patches <- barplot Gca (map (fun p => (CStr (fst p), VInt (snd p)))
                              (fb_counts bins)) ;;
  draw (SetTitle Gca "Plot of Skewness values of Numerical Columns") ;;;
  draw (SetXlabel Gca "Transaction Amount Ranges") ;;;
  draw (SetYlabel Gca "Num. Frauds") ;;;
  draw (TickParams Gca 60) ;;;
  annotate Gca patches
           (fun idx => opt_int (nth idx (fb_texts bins) None)) None ;;;
  ret tt.

(** The ten operations by name, and a session that invokes some of them one
    after the other; a caller goes on after an operation that raised. *)
Inductive Op :=
| BasicOverview
| SummaryStatistics
| MissingValues
| NumericalDistribution
| DescribeSkewness
| CategoricalDistribution
| CorrelationAnalysis
| OutlireDetection
| CountOutliers
| FraudAnalysis.

Definition run (o : Op) : M unit :=
  match o with
  | BasicOverview => basic_overview
  | SummaryStatistics => summary_statistics
  | MissingValues => missing_values
  | NumericalDistribution => numerical_distribution
  | DescribeSkewness => describe_skewness
  | CategoricalDistribution => categorical_distribution
  | CorrelationAnalysis => correlation_analysis
  | OutlireDetection => outlire_detection
  | CountOutliers => count_outliers
  | FraudAnalysis => fraud_analysis
  end.


End Operations.

(* ================================================================== *)
(** ** Vocabulary of the specification

    Notions the properties are stated with; none of them is used by the
    operations above. *)

(** The number of entries of [l] that are at most [c]. *)
Definition count_le (c : Q) (l : list Q) : nat :=
  length (filter (fun x => Qle_bool x c) l).

(** [counts P l n]: exactly [n] entries of [l] satisfy [P]. *)
Inductive counts {A} (P : A -> Prop) : list A -> nat -> Prop :=
| counts_nil : counts P [] 0
| counts_hit x l n : P x -> counts P l n -> counts P (x :: l) (S n)
| counts_miss x l n : ~ P x -> counts P l n -> counts P (x :: l) n.




(** The number of entries of [l] that are at least [c]. *)
Definition count_ge (c : Q) (l : list Q) : nat :=
  length (filter (fun x => Qle_bool c x) l).

(** The total of a series of counts. *)
Definition sum_counts (s : list (string * nat)) : nat :=
  fold_right (fun p acc => (snd p + acc)%nat) 0%nat s.

(** Strictly ascending cells: in order and not equal. *)
Definition strictly_below (a b : f64) : Prop := fle a b /\ feqb a b = false.

(** The eleven decile edges that [qcut] computes before dropping
    duplicates. *)
Definition decile_edges (x : list f64) : list f64 :=
  map (fun p => quantile p x) (linspace 10).


(** The world after some more drawing calls. *)
Definition add_canvas (w : World) (ds : list Draw) : World :=
  {| self := self w; stdout := stdout w; canvas := canvas w ++ ds |}.

(** [w'] is [w] with the same analyzer and [ps], [ds] appended to the text
    stream and to the graphics context. *)
Definition emits (w w' : World) (ps : list Printed) (ds : list Draw) : Prop :=
  self w' = self w /\ stdout w' = stdout w ++ ps /\ canvas w' = canvas w ++ ds.

(** A computation whose result and output are determined by the dataset the
    analyzer refers to, and which leaves the analyzer as it is. *)
Definition data_only {A} (m : M A) : Prop :=
  forall w1 w2 : World,
    data (self w1) = data (self w2) ->
    exists (ps : list Printed) (ds : list Draw),
      fst (m w1) = fst (m w2)
      /\ emits w1 (snd (m w1)) ps ds
      /\ emits w2 (snd (m w2)) ps ds.

(** The drawing calls of one chart of [categorical_distribution]. *)
Definition chart_events (ax : Axes) (column : string) (c : Column) : list Draw :=
  let grouping_counts := sort_sizes (groupby_size c) in
  [Barplot ax (map (fun p => (fst p, VInt (snd p))) grouping_counts);
   TickParams ax 45; SetYlabel ax "Count"; SetXlabel ax column]
  ++ map (fun i => Text ax i (bar_text grouping_counts i))
         (seq 0 (length grouping_counts)).

(** The value of [idx] after a chart with [n] bars. *)
Definition idx_after (idx n : nat) : nat :=
  match n with
  | O => idx
  | S m => m
  end.

(** The drawing calls of the loop of [categorical_distribution] from column
    number [i] on, up to the first column the frame lacks, and the value of
    [idx] the loop ends with (or the exception it raises). *)
Fixpoint loop_events (axes : list Axes) (d : DataFrame) (i : nat)
         (cols : list string) : list Draw :=
  match cols with
  | [] => []
  | c :: t =>
      match lookup c d with
      | Some col => chart_events (nth i axes Gca) c col
                    ++ loop_events axes d (S i) t
      | None => []
      end
  end.

Fixpoint loop_idx (d : DataFrame) (i : nat) (cols : list string)
         (prev : option nat) : result (option nat) :=
  match cols with
  | [] => Ok prev
  | c :: t =>
      match lookup c d with
      | Some col =>
          loop_idx d (S i) t
            (Some (idx_after i (length (sort_sizes (groupby_size col)))))
      | None => Raise (KeyError c)
      end
  end.

(** The four axes of the 2 x 2 grid. *)
Definition grid4 : list Axes := map Grid (seq 0 4).

(** The columns an operation refers to by a name of its own. *)
Definition referenced_columns (o : Op) : list string :=
  match o with
  | FraudAnalysis => ["FraudResult"; "Amount"]%string
  | CategoricalDistribution => columns_of_interest
  | _ => []
  end.

(** The number of missing cells of a column and its share of the rows. *)
Definition missing_count (c : Column) : nat :=
  match c with
  | NumCol v => length (filter isna v)
  | ObjCol v => length (filter isna v)
  end.



(** The values of a series, in order. *)
Definition values {A} (s : list (string * A)) : list A := map snd s.

(** The cut-offs and the count of one column in closed form. *)
Definition lower_cut (v : list f64) : f64 :=
  fsub (quantile (1 # 4) v)
       (fmul (Some (3 # 2)) (fsub (quantile (3 # 4) v) (quantile (1 # 4) v))).

Definition upper_cut (v : list f64) : f64 :=
  fadd (quantile (3 # 4) v)
       (fmul (Some (3 # 2)) (fsub (quantile (3 # 4) v) (quantile (1 # 4) v))).

Definition outlier_count (v : list f64) : nat :=
  length (filter (fun x => flt x (lower_cut v) || fgt x (upper_cut v)) v).

(* ================================================================== *)
(** ** Sample frames *)

Definition demo_X : list f64 := [Some 1; Some 2; Some 3; Some 4; Some 100].

Definition demo_Z : list f64 := [Some 1; None; None; Some 2; Some (-50)].

Definition demo_frame : DataFrame :=
  [("X"%string, NumCol demo_X);
   ("Y"%string, ObjCol [None; Some "a"%string; None; None; None]);
   ("Z"%string, NumCol demo_Z)].

(** A rational stand-in for the primitives, for running the operations on
    the sample frames: the third central moment in place of the skewness (it
    has the sign of the skewness), no correlation, empty renderings. *)
Definition third_moment (v : list f64) : f64 :=
  match fmean v with
  | Some m => fmean (map (fun x => Some ((x - m) * (x - m) * (x - m))) (dropna v))
  | None => NaN
  end.

Definition sample_primitives : Primitives :=
  {| skew := third_moment;
     pearson := fun _ _ => NaN;
     info_text := fun _ => EmptyString;
     describe_text := fun _ => EmptyString |}.

(** The scenario column: 100 values spread evenly over [[0, 100]] and the two
    injected values. *)
Definition even_grid : list Q :=
  map (fun k => inject_Z (Z.of_nat k) * 100 / 99) (seq 0 100).

Definition scenario_X : list f64 :=
  Some (-1000) :: Some 1000 :: map Some even_grid.

Definition scenario_frame : DataFrame := [("X"%string, NumCol scenario_X)].

(** A column of the same shape whose 100 values in [[0, 100]] are clumped:
    99 times 50 and once 0. *)
Definition clumped_X : list f64 :=
  Some (-1000) :: Some 1000 :: Some 0 :: repeat (Some 50) 99.

(** The fraud scenario of the specification: five fraudulent rows with
    amounts 10, 20, 30, 40, 50. *)
Definition five_frauds : DataFrame :=
  [("FraudResult"%string, NumCol [Some 1; Some 1; Some 1; Some 1; Some 1]);
   ("Amount"%string, NumCol [Some 10; Some 20; Some 30; Some 40; Some 50])].


Definition bins_of (r : result FraudBins) : FraudBins :=
  match r with
  | Ok b => b
  | Raise _ => {| fb_fraud := []; fb_edges := []; fb_labels := [];
                  fb_counts := []; fb_texts := [] |}
  end.

Definition five_frauds_bins : FraudBins :=
  Eval vm_compute in bins_of (fraud_bins five_frauds).

(** A frame with the four categorical columns, [ChannelId] taking two
    values. *)
Definition two_channels : DataFrame :=
  [("CurrencyCode"%string, ObjCol [Some "UGX"; Some "UGX"; Some "UGX"]%string);
   ("ProviderId"%string, ObjCol [Some "P1"; Some "P2"; Some "P1"]%string);
   ("ProductCategory"%string, ObjCol [Some "airtime"; Some "data"; Some "tv"]%string);
   ("ChannelId"%string, ObjCol [Some "C3"; Some "C2"; Some "C3"]%string)].

Definition fresh (d : DataFrame) : World :=
  {| self := init d; stdout := []; canvas := [] |}.

Definition is_delaxes (e : Draw) : bool :=
  match e with
  | Delaxes _ => true
  | _ => false
  end.

(** A frame with three numeric columns, for the sibling loop of
    [numerical_distribution]. *)
Definition three_numeric : DataFrame :=
  [("a"%string, NumCol [Some 1; Some 2]);
   ("b"%string, NumCol [Some 3; Some 5]);
   ("c"%string, NumCol [Some 8; Some 13])].

(* ================================================================== *)
(** ** Further vocabulary *)

(** The drawing calls of one chart of [numerical_distribution]. *)
Definition histogram_events (ax : Axes) (column : string) (d : DataFrame)
  : list Draw :=
  [Histplot ax column (num_column column d) 15;
   SetTitle ax ("Distribution plot of " ++ column);
   SetXlabel ax column;
   SetYlabel ax "Frequency";
   Axvline ax (fmean (num_column column d)) "Mean";
   Axvline ax (fmedian (num_column column d)) "Median";
   Legend ax].

(** The charts of the columns [cols], the first one on axes number [i]. *)
Fixpoint histograms (axes : list Axes) (d : DataFrame) (i : nat)
         (cols : list string) : list Draw :=
  match cols with
  | [] => []
  | c :: t => histogram_events (nth i axes Gca) c d ++ histograms axes d (S i) t
  end.

(** The number of rows of the grid of [n] charts. *)
Definition grid_rows (n : nat) : nat := ((n + ceil_sqrt n - 1) / ceil_sqrt n)%nat.

(** The total of the sizes of some groups. *)
Definition total_sizes (l : list (Cell * nat)) : nat :=
  fold_right (fun p acc => (snd p + acc)%nat) 0%nat l.

(** The operations that write text. *)
Definition is_text_op (o : Op) : bool :=
  match o with
  | BasicOverview | SummaryStatistics | MissingValues => true
  | _ => false
  end.

(* ================================================================== *)
(** * Properties *)

(** ** Comparisons *)

Lemma Qltb_lt (x y : Q) : Qltb x y = true <-> x < y.
Proof.
  unfold Qltb. rewrite negb_true_iff.
  destruct (Qle_bool y x) eqn:E.
  - apply Qle_bool_iff in E. split; [discriminate | intro L].
    exfalso. apply (Qlt_not_le _ _ L E).
  - split; [intros _ | reflexivity].
    apply Qnot_le_lt. intro L. apply Qle_bool_iff in L. congruence.
Qed.

Lemma Qltb_ge (x y : Q) : Qltb x y = false <-> y <= x.
Proof.
  unfold Qltb. rewrite negb_false_iff. apply Qle_bool_iff.
Qed.

Lemma Qle_bool_false (x y : Q) : Qle_bool x y = false -> y < x.
Proof.
  intro E. apply Qnot_le_lt. intro L. apply Qle_bool_iff in L. congruence.
Qed.

Lemma flt_nan_l (b : f64) : flt NaN b = false.
Proof. reflexivity. Qed.

Lemma flt_nan_r (a : f64) : flt a NaN = false.
Proof. destruct a; reflexivity. Qed.

(** ** Insertion sort on rationals *)

Lemma insert_perm (x : Q) (l : list Q) : Permutation (x :: l) (insert x l).
Proof.
  induction l as [|y t IH]; simpl.
  - apply Permutation_refl.
  - destruct (Qle_bool x y).
    + apply Permutation_refl.
    + eapply perm_trans; [apply perm_swap|]. now apply perm_skip.
Qed.

Lemma sort_perm (l : list Q) : Permutation l (sort l).
Proof.
  induction l as [|x t IH]; simpl.
  - constructor.
  - eapply perm_trans; [apply perm_skip, IH | apply insert_perm].
Qed.

Lemma insert_sorted (x : Q) (l : list Q) :
  StronglySorted Qle l -> StronglySorted Qle (insert x l).
Proof.
  induction 1 as [|y t St IH Hy]; simpl.
  - repeat constructor.
  - destruct (Qle_bool x y) eqn:E.
    + apply Qle_bool_iff in E. constructor.
      * now constructor.
      * constructor; [exact E|].
        eapply Forall_impl; [|exact Hy]. intros z Hz. eapply Qle_trans; eauto.
    + apply Qle_bool_false in E. constructor; [exact IH|].
      eapply Permutation_Forall; [apply insert_perm|].
      constructor; [now apply Qlt_le_weak | exact Hy].
Qed.

Lemma sort_sorted (l : list Q) : StronglySorted Qle (sort l).
Proof.
  induction l as [|x t IH]; simpl; [constructor | now apply insert_sorted].
Qed.

Lemma sort_length (l : list Q) : length (sort l) = length l.
Proof. symmetry. apply Permutation_length, sort_perm. Qed.

(** ** Order statistics

    In an ascending list a downward-closed test holds at rank [k] exactly
    when it holds of more than [k] entries; the number of entries passing a
    test does not depend on the arrangement, so two ascending arrangements of
    the same values agree rank by rank. *)

Lemma filter_length_perm {A} (f : A -> bool) (l l' : list A) :
  Permutation l l' -> length (filter f l) = length (filter f l').
Proof.
  induction 1; simpl; auto.
  - destruct (f x); simpl; congruence.
  - destruct (f x), (f y); reflexivity.
  - congruence.
Qed.

Section Ranks.

Variable A : Type.
Variable le : A -> A -> Prop.
Variable leb : A -> A -> bool.
Hypothesis leb_le : forall x y, leb x y = true <-> le x y.
Hypothesis le_refl : forall x, le x x.
Hypothesis le_trans : forall x y z, le x y -> le y z -> le x z.

Lemma nth_sorted_down (f : A -> bool) (s : list A) :
  (forall x y, le x y -> f y = true -> f x = true) ->
  StronglySorted le s ->
  forall (k : nat) (d : A), (k < length s)%nat ->
    (f (nth k s d) = true <-> (k < length (filter f s))%nat).
Proof.
  intros Dn. induction 1 as [|x t St IH Hx]; intros k d Hk; simpl in *; [lia|].
  destruct (f x) eqn:E; simpl.
  - destruct k as [|k]; [split; [lia | intros _; exact E]|].
    rewrite IH by lia. lia.
  - assert (F : forall y, In y t -> f y = false).
    { intros y Hy. destruct (f y) eqn:Ey; [|reflexivity].
      rewrite Forall_forall in Hx. rewrite (Dn x y (Hx y Hy) Ey) in E.
      discriminate. }
    assert (Fl : filter f t = []).
    { clear - F. induction t as [|y t IHt]; simpl; [reflexivity|].
      rewrite (F y) by now left. apply IHt. intros z Hz. apply F. now right. }
    rewrite Fl. simpl. split; [|lia]. intro T. exfalso.
    destruct k as [|k]; [congruence|].
    rewrite (F (nth k t d)) in T; [discriminate | apply nth_In; lia].
Qed.

Lemma sorted_nth_mono (s : list A) :
  StronglySorted le s ->
  forall (i j : nat) (d : A), (i <= j)%nat -> (j < length s)%nat ->
    le (nth i s d) (nth j s d).
Proof.
  induction 1 as [|x t St IH Hx]; intros i j d Hij Hj; simpl in *; [lia|].
  destruct i as [|i], j as [|j]; try lia.
  - apply le_refl.
  - rewrite Forall_forall in Hx. apply Hx, nth_In. lia.
  - apply IH; lia.
Qed.

Lemma sorted_perm_rank (s t : list A) :
  StronglySorted le s -> StronglySorted le t -> Permutation s t ->
  forall (k : nat) (d : A), (k < length s)%nat ->
    le (nth k s d) (nth k t d).
Proof.
  intros Ss St P k d Hk.
  assert (Hk' : (k < length t)%nat) by (rewrite <- (Permutation_length P); exact Hk).
  assert (Dn : forall x y, le x y -> leb y (nth k t d) = true ->
                           leb x (nth k t d) = true).
  { intros x y L T. apply leb_le. apply leb_le in T. eapply le_trans; eauto. }
  apply leb_le.
  apply (proj2 (nth_sorted_down (fun x => leb x (nth k t d)) s Dn Ss k d Hk)).
  rewrite (filter_length_perm _ _ _ P).
  apply (proj1 (nth_sorted_down (fun x => leb x (nth k t d)) t Dn St k d Hk')).
  apply leb_le, le_refl.
Qed.

End Ranks.


Lemma sorted_perm_nth (s t : list Q) :
  StronglySorted Qle s -> StronglySorted Qle t -> Permutation s t ->
  forall (k : nat) (d : Q), (k < length s)%nat -> nth k s d == nth k t d.
Proof.
  intros Ss St P k d Hk.
  assert (Hk' : (k < length t)%nat) by (rewrite <- (Permutation_length P); exact Hk).
  apply Qle_antisym.
  - apply (sorted_perm_rank Q Qle Qle_bool Qle_bool_iff Qle_refl Qle_trans s t);
      assumption.
  - apply (sorted_perm_rank Q Qle Qle_bool Qle_bool_iff Qle_refl Qle_trans t s);
      [assumption | assumption | now apply Permutation_sym | assumption].
Qed.

(** ** Labelled lookups *)

Lemma keys_map {A B} (f : string * A -> B) (s : list (string * A)) :
  keys (map (fun p => (fst p, f p)) s) = keys s.
Proof.
  unfold keys. rewrite map_map. apply map_ext. reflexivity.
Qed.

Lemma lookup_in {A} (s : list (string * A)) (k : string) (v : A) :
  NoDup (keys s) -> In (k, v) s -> lookup k s = Some v.
Proof.
  induction s as [|[k' v'] t IH]; simpl; intros N I; [contradiction|].
  inversion N as [|? ? Nk Nt]; subst.
  destruct I as [E|I].
  - inversion E; subst. now rewrite String.eqb_refl.
  - destruct (String.eqb k' k) eqn:E.
    + apply String.eqb_eq in E. subst. exfalso. apply Nk.
      change k with (fst (k, v)). now apply in_map.
    + now apply IH.
Qed.

Lemma lookup_none {A} (s : list (string * A)) (k : string) :
  ~ In k (keys s) -> lookup k s = None.
Proof.
  induction s as [|[k' v'] t IH]; simpl; intro N; [reflexivity|].
  destruct (String.eqb k' k) eqn:E.
  - apply String.eqb_eq in E. tauto.
  - apply IH. tauto.
Qed.

Lemma lookup_some_in {A} (s : list (string * A)) (k : string) (v : A) :
  lookup k s = Some v -> In (k, v) s.
Proof.
  induction s as [|[k' v'] t IH]; simpl; [discriminate|].
  destruct (String.eqb k' k) eqn:E.
  - apply String.eqb_eq in E. intro S. inversion S; subst. now left.
  - intro S. right. now apply IH.
Qed.

Lemma at_label_map {A} (g : A -> f64) (s : list (string * A)) (k : string) (v : A) :
  NoDup (keys s) -> In (k, v) s ->
  at_label k (map (fun p => (fst p, g (snd p))) s) = g v.
Proof.
  intros N I. unfold at_label.
  rewrite (lookup_in _ k (g v)); [reflexivity | now rewrite keys_map |].
  apply in_map_iff. exists (k, v). auto.
Qed.

Lemma series_op_map {A} (op : f64 -> f64 -> f64) (ga gb : A -> f64)
      (s : list (string * A)) :
  NoDup (keys s) ->
  series_op op (map (fun p => (fst p, ga (snd p))) s)
               (map (fun p => (fst p, gb (snd p))) s)
  = map (fun p => (fst p, op (ga (snd p)) (gb (snd p)))) s.
Proof.
  intro N. unfold series_op. rewrite map_map. apply map_ext_in.
  intros [k v] I. simpl. now rewrite (at_label_map gb s k v N I).
Qed.

Lemma series_scale_map {A} (c : Q) (g : A -> f64) (s : list (string * A)) :
  series_scale c (map (fun p => (fst p, g (snd p))) s)
  = map (fun p => (fst p, fmul (Some c) (g (snd p)))) s.
Proof.
  unfold series_scale. rewrite map_map. reflexivity.
Qed.

(** ** Numeric columns of a frame *)

Lemma in_numeric_data (df : DataFrame) (name : string) (v : list f64) :
  In (name, v) (get_numeric_data df) <-> In (name, NumCol v) df.
Proof.
  unfold get_numeric_data. rewrite in_flat_map. split.
  - intros [[k c] [I J]]. destruct c; simpl in J; [|contradiction].
    destruct J as [J|[]]. inversion J; subst. exact I.
  - intro I. exists (name, NumCol v). split; [exact I | now left].
Qed.

Lemma numeric_keys_incl (df : DataFrame) (k : string) :
  In k (keys (get_numeric_data df)) -> In k (keys df).
Proof.
  unfold keys. rewrite !in_map_iff. intros [[k' v] [E I]]. simpl in E. subst.
  apply in_numeric_data in I. exists (k, NumCol v). auto.
Qed.

Lemma numeric_keys_nodup (df : DataFrame) :
  NoDup (keys df) -> NoDup (keys (get_numeric_data df)).
Proof.
  induction df as [|[k c] t IH]; simpl; intro N; [constructor|].
  inversion N as [|? ? Nk Nt]; subst.
  destruct c; simpl; [|now apply IH].
  constructor; [|now apply IH].
  intro I. apply Nk. now apply (numeric_keys_incl t).
Qed.

Lemma filter_none {A} (f : A -> bool) (l : list A) :
  (forall x, In x l -> f x = false) -> filter f l = [].
Proof.
  induction l as [|x t IH]; simpl; intro Hf; [reflexivity|].
  rewrite (Hf x) by now left. apply IH. intros y Hy. apply Hf. now right.
Qed.

Lemma filter_key_unique {A} (s : list (string * A)) (k : string) (v : A) :
  NoDup (keys s) -> In (k, v) s ->
  filter (fun p => String.eqb (fst p) k) s = [(k, v)].
Proof.
  induction s as [|[k' v'] t IH]; simpl; intros N I; [contradiction|].
  inversion N as [|? ? Nk Nt]; subst.
  destruct (String.eqb k' k) eqn:E.
  - apply String.eqb_eq in E. subst.
    destruct I as [I|I].
    + inversion I; subst. f_equal.
      rewrite filter_none; [reflexivity|].
      intros [k1 v1] I1. simpl. apply String.eqb_neq. intro; subst.
      apply Nk. change k with (fst (k, v1)). now apply in_map.
    + exfalso. apply Nk. change k with (fst (k, v)). now apply in_map.
  - destruct I as [I|I]; [inversion I; subst; rewrite String.eqb_refl in E; discriminate|].
    now apply IH.
Qed.

Lemma select_numeric_all (df : DataFrame) :
  NoDup (keys df) ->
  select_numeric (keys (get_numeric_data df)) df = get_numeric_data df.
Proof.
  intro N. apply numeric_keys_nodup in N. unfold select_numeric.
  set (nd := get_numeric_data df) in *.
  assert (G : forall l, incl l nd ->
            flat_map (fun n => filter (fun p => String.eqb (fst p) n) nd) (keys l) = l).
  { induction l as [|[k v] l IH]; simpl; intro I; [reflexivity|].
    rewrite (filter_key_unique nd k v N) by (apply I; now left).
    simpl. f_equal. apply IH. intros x Hx. apply I. now right. }
  apply G. apply incl_refl.
Qed.

Lemma num_column_in (df : DataFrame) (name : string) (v : list f64) :
  NoDup (keys df) -> In (name, NumCol v) df -> num_column name df = v.
Proof.
  intros N I. unfold num_column. now rewrite (lookup_in df name (NumCol v) N I).
Qed.

(** ** The quantile is the linear-interpolation percentile *)


Lemma floor_index (n : nat) (p : Q) :
  0 <= p -> p <= 1 ->
  let pos := inject_Z (Z.of_nat n) * p in
  inject_Z (Z.of_nat (Z.to_nat (Qfloor pos))) = inject_Z (Qfloor pos)
  /\ (Z.to_nat (Qfloor pos) <= n)%nat.
Proof.
  intros P0 P1 pos.
  assert (N0 : 0 <= inject_Z (Z.of_nat n)).
  { change 0 with (inject_Z 0). rewrite <- Zle_Qle. lia. }
  assert (A : 0 <= pos) by (unfold pos; nra).
  assert (B : pos <= inject_Z (Z.of_nat n)) by (unfold pos; nra).
  apply Qfloor_resp_le in A, B. rewrite Qfloor_Z in B.
  change (Qfloor 0) with 0%Z in A.
  split; [now rewrite Z2Nat.id | lia].
Qed.


(** ** Counting with a predicate *)



Lemma counts_le_length {A} (P : A -> Prop) (l : list A) (n : nat) :
  counts P l n -> (n <= length l)%nat.
Proof. induction 1; simpl; lia. Qed.



Lemma mask_rows_filter (lower upper : f64) (v : list f64) :
  mask_rows (outlier_mask lower upper v)
  = length (filter (fun x => flt x lower || fgt x upper) v).
Proof.
  unfold mask_rows, outlier_mask.
  induction v as [|x t IH]; simpl; [reflexivity|].
  destruct (flt x lower || fgt x upper); simpl; congruence.
Qed.

(** ** The report of [count_outliers] *)

Lemma insert_by_count_perm x l : Permutation (x :: l) (insert_by_count x l).
Proof.
  induction l as [|y t IH]; simpl; [apply Permutation_refl|].
  destruct (Nat.leb (snd x) (snd y)); [apply Permutation_refl|].
  eapply perm_trans; [apply perm_swap | now apply perm_skip].
Qed.

Lemma sort_by_count_perm l : Permutation l (sort_by_count l).
Proof.
  induction l as [|x t IH]; simpl; [constructor|].
  eapply perm_trans; [apply perm_skip, IH | apply insert_by_count_perm].
Qed.

Lemma outlier_report_shape (df : DataFrame) :
  NoDup (keys df) ->
  let nd := get_numeric_data df in
  let r := outlier_report df in
  or_lower r = map (fun p => (fst p, lower_cut (snd p))) nd
  /\ or_upper r = map (fun p => (fst p, upper_cut (snd p))) nd
  /\ or_table r = sort_by_count (map (fun p => (fst p, outlier_count (snd p))) nd).
Proof.
  intros N nd r.
  assert (Nn : NoDup (keys nd)) by now apply numeric_keys_nodup.
  unfold r, outlier_report. cbv zeta. simpl.
  rewrite (select_numeric_all df N). fold nd.
  unfold df_quantile.
  rewrite (series_op_map fsub (quantile (3 # 4)) (quantile (1 # 4)) nd Nn).
  rewrite (series_scale_map (3 # 2)
             (fun v => fsub (quantile (3 # 4) v) (quantile (1 # 4) v)) nd).
  rewrite (series_op_map fsub (quantile (1 # 4))
             (fun v => fmul (Some (3 # 2))
                            (fsub (quantile (3 # 4) v) (quantile (1 # 4) v))) nd Nn).
  rewrite (series_op_map fadd (quantile (3 # 4))
             (fun v => fmul (Some (3 # 2))
                            (fsub (quantile (3 # 4) v) (quantile (1 # 4) v))) nd Nn).
  split; [reflexivity|]. split; [reflexivity|].
  f_equal. rewrite keys_map. unfold keys. rewrite map_map.
  apply map_ext_in. intros [k v] I. cbn [fst snd].
  f_equal. rewrite mask_rows_filter. unfold outlier_count.
  rewrite (num_column_in df k v N) by now apply in_numeric_data.
  pose proof (at_label_map lower_cut nd k v Nn I) as L.
  pose proof (at_label_map upper_cut nd k v Nn I) as U.
  unfold lower_cut in L at 1. unfold upper_cut in U at 1.
  rewrite L, U. reflexivity.
Qed.

Lemma in_numeric_unique (df : DataFrame) (name : string) (v v' : list f64) :
  NoDup (keys df) -> In (name, NumCol v) df ->
  In (name, v') (get_numeric_data df) -> v' = v.
Proof.
  intros N I I'. apply in_numeric_data in I'.
  pose proof (lookup_in df name _ N I) as L.
  pose proof (lookup_in df name _ N I') as L'.
  congruence.
Qed.

Lemma outlier_table_entry (df : DataFrame) (name : string) (v : list f64) (n : nat) :
  NoDup (keys df) -> In (name, NumCol v) df ->
  (In (name, n) (or_table (outlier_report df)) <-> n = outlier_count v).
Proof.
  intros N I.
  destruct (outlier_report_shape df N) as (_ & _ & T). rewrite T.
  split.
  - intro J. apply (Permutation_in _ (Permutation_sym (sort_by_count_perm _))) in J.
    apply in_map_iff in J. destruct J as [[k v'] [E J]]. simpl in E.
    inversion E; subst. now rewrite (in_numeric_unique df name v v' N I J).
  - intros ->. apply (Permutation_in _ (sort_by_count_perm _)).
    apply in_map_iff. exists (name, v). split; [reflexivity|].
    now apply in_numeric_data.
Qed.

Lemma unique_labels_fixed (l : list string) : NoDup l -> unique_labels l = l.
Proof.
  induction 1 as [|x t Nx Nt IH]; simpl; [reflexivity|].
  rewrite IH. f_equal. clear IH Nt.
  induction t as [|y t IHt]; simpl; [reflexivity|].
  destruct (String.eqb x y) eqn:E.
  - apply String.eqb_eq in E. subst. exfalso. apply Nx. now left.
  - simpl. f_equal. apply IHt. intro I. apply Nx. now right.
Qed.

Lemma outlier_texts (df : DataFrame) :
  NoDup (keys df) ->
  or_texts (outlier_report df)
  = map (fun p => Some (snd p)) (or_table (outlier_report df)).
Proof.
  intro N.
  destruct (outlier_report_shape df N) as (_ & _ & T).
  assert (K : NoDup (keys (or_table (outlier_report df)))).
  { rewrite T. unfold keys.
    eapply Permutation_NoDup; [apply Permutation_map, sort_by_count_perm|].
    fold (keys (map (fun p : string * list f64 => (fst p, outlier_count (snd p)))
                    (get_numeric_data df))).
    rewrite keys_map. now apply numeric_keys_nodup. }
  change (or_texts (outlier_report df))
    with (map (fun c => lookup c (or_table (outlier_report df)))
              (unique_labels (keys (or_table (outlier_report df))))).
  rewrite (unique_labels_fixed _ K).
  unfold keys. rewrite map_map. apply map_ext_in. intros [k n] J. simpl.
  now apply lookup_in.
Qed.


Lemma demo_frame_nodup : NoDup (keys demo_frame).
Proof.
  apply (NoDup_count_occ' string_dec). intros x Hx.
  simpl in Hx. repeat (destruct Hx as [<-|Hx]; [reflexivity|]). contradiction.
Qed.


Lemma filter_present_le (f : f64 -> bool) (v : list f64) :
  f NaN = false -> (length (filter f v) <= length (filter notna v))%nat.
Proof.
  intro Hf. induction v as [|[x|] t IH]; cbn [filter]; [simpl; lia | | ].
  - change (notna (Some x)) with true. destruct (f (Some x)); cbn [length]; lia.
  - unfold NaN in Hf. rewrite Hf. exact IH.
Qed.

(** C10.  A row whose value is missing is never selected by the outlier mask
    of its column, whatever the cut-offs, so the count reported for a numeric
    column is at most the number of its present values. *)
Theorem count_outliers_skips_missing (df : DataFrame) (name : string) (v : list f64) :
  NoDup (keys df) -> In (name, NumCol v) df ->
  let r := outlier_report df in
  let mask := outlier_mask (at_label name (or_lower r))
                           (at_label name (or_upper r))
                           (num_column name df) in
  (forall i, nth_error v i = Some NaN -> nth_error mask i = Some false)
  /\ (forall n, In (name, n) (or_table r) ->
        n = mask_rows mask /\ (n <= length (filter notna v))%nat).
Proof.
  intros N I r mask.
  assert (M : mask = outlier_mask (lower_cut v) (upper_cut v) v).
  { unfold mask. rewrite (num_column_in df name v N I).
    destruct (outlier_report_shape df N) as (L & U & _). fold r in L, U.
    assert (Nn : NoDup (keys (get_numeric_data df))) by now apply numeric_keys_nodup.
    assert (J : In (name, v) (get_numeric_data df)) by now apply in_numeric_data.
    rewrite L, U.
    now rewrite (at_label_map lower_cut _ name v Nn J),
                (at_label_map upper_cut _ name v Nn J). }
  split.
  - intros i Hi. rewrite M. unfold outlier_mask.
    rewrite nth_error_map, Hi. simpl. unfold fgt. now rewrite flt_nan_r.
  - intros n Hn. apply (outlier_table_entry df name v n N I) in Hn. subst n.
    rewrite M, mask_rows_filter. split; [reflexivity|].
    unfold outlier_count. apply filter_present_le.
    unfold fgt. now rewrite flt_nan_r.
Qed.

Lemma count_outliers_skips_missing_witness :
  let r := outlier_report demo_frame in
  let mask := outlier_mask (at_label "Z" (or_lower r)) (at_label "Z" (or_upper r))
                           (num_column "Z" demo_frame) in
  (forall i, nth_error demo_Z i = Some NaN ->
             nth_error mask i = Some false)
  /\ (forall n, In ("Z"%string, n) (or_table r) ->
        n = mask_rows mask
        /\ (n <= length (filter notna demo_Z))%nat).
Proof.
  apply (count_outliers_skips_missing demo_frame "Z"
           demo_Z).
  - exact demo_frame_nodup.
  - unfold demo_frame. simpl. auto.
Defined.

(** ** [missing_values] *)




Lemma bool_mean_fraction (m : list bool) :
  m <> [] ->
  bool_mean m = Some (inject_Z (Z.of_nat (count_true m))
                      / inject_Z (Z.of_nat (length m))).
Proof. destruct m; [congruence | reflexivity]. Qed.





(** The report of the sample frame: [Y] misses 4 rows of 5, [Z] 2 of 5, and
    the complete column [X] is left out. *)
Example missing_report_demo :
  map (fun p => (fst p, option_map Qred (snd p))) (missing_report demo_frame)
  = [("Y"%string, Some 80); ("Z"%string, Some 40)].
Proof. vm_compute. reflexivity. Qed.

(** ** Rounding *)




Lemma first_le (a b : Q) : a <= b -> fle (Some a) (Some b).
Proof. intro L. exact L. Qed.



(** ** The order of cells *)






(** ** [sort_values] *)








Lemma sorted_map_mono {A B} (RA : A -> A -> Prop) (RB : B -> B -> Prop)
      (f : A -> B) (l : list A) :
  (forall x y, RA x y -> RB (f x) (f y)) ->
  StronglySorted RA l -> StronglySorted RB (map f l).
Proof.
  intros Hf. induction 1 as [|x t St IH Hx]; simpl; constructor; [exact IH|].
  apply Forall_map. eapply Forall_impl; [|exact Hx]. intros y. apply Hf.
Qed.

(** ** [describe_skewness] *)





(** ** Where the interpolated value lies *)

Lemma interpolate_bounds (p : Q) (s : list Q) :
  0 <= p -> p <= 1 -> StronglySorted Qle s -> s <> [] ->
  let k := Z.to_nat (Qfloor (inject_Z (Z.of_nat (length s - 1)) * p)) in
  exists x : Q,
    interpolate p s = Some x
    /\ nth k s 0 <= x
    /\ x <= nth (Nat.min (k + 1) (length s - 1)) s 0.
Proof.
  intros P0 P1 S Ne k. destruct s as [|x0 s]; [congruence|].
  unfold interpolate.
  set (n := length (x0 :: s)) in *.
  set (pos := inject_Z (Z.of_nat (n - 1)) * p) in *.
  destruct (floor_index (n - 1) p P0 P1) as [Hi Hk]. fold pos in Hi, Hk. fold k in Hk.
  assert (L : (0 < n)%nat) by (unfold n; simpl; lia).
  eexists. split; [reflexivity|]. fold k.
  rewrite (nth_indep (x0 :: s) x0 0) by (fold n; lia).
  rewrite (nth_indep (x0 :: s) x0 0 (n := Nat.min _ _)) by (fold n; lia).
  assert (M : nth k (x0 :: s) 0 <= nth (Nat.min (k + 1) (n - 1)) (x0 :: s) 0).
  { apply (sorted_nth_mono Q Qle Qle_refl); [exact S | lia | fold n; lia]. }
  assert (F0 : 0 <= pos - inject_Z (Qfloor pos)) by (pose proof (Qfloor_le pos); lra).
  assert (F1 : pos - inject_Z (Qfloor pos) <= 1).
  { pose proof (Qlt_floor pos) as Lt. rewrite inject_Z_plus in Lt.
    change (inject_Z 1) with 1 in Lt. lra. }
  split; nra.
Qed.

Lemma dropna_perm (v w : list f64) :
  Permutation v w -> Permutation (dropna v) (dropna w).
Proof.
  induction 1 as [|[x|] v w P IH|[x|] [y|] v|v w u P1 IH1 P2 IH2]; simpl;
    try apply Permutation_refl; auto.
  - apply perm_swap.
  - eapply perm_trans; eauto.
Qed.

Lemma dropna_some (xs : list Q) : dropna (map Some xs) = xs.
Proof. induction xs; simpl; congruence. Qed.

Lemma count_lt_ge (c : Q) (l : list Q) :
  (length (filter (fun x => Qltb x c) l) + count_ge c l = length l)%nat.
Proof.
  unfold count_ge, Qltb. induction l as [|x t IH]; simpl; [reflexivity|].
  destruct (Qle_bool c x); simpl; lia.
Qed.

Lemma sorted_rank_le (t : list Q) (c : Q) (k : nat) :
  StronglySorted Qle t -> (k < count_le c t)%nat -> nth k t 0 <= c.
Proof.
  intros S Hk. unfold count_le in Hk.
  assert (Hl : (k < length t)%nat).
  { pose proof (filter_length_le (fun x => Qle_bool x c) t). lia. }
  apply Qle_bool_iff.
  apply (proj2 (nth_sorted_down Q Qle (fun x => Qle_bool x c) t
                  (fun x y L T => proj2 (Qle_bool_iff x c)
                     (Qle_trans _ _ _ L (proj1 (Qle_bool_iff y c) T)))
                  S k 0 Hl)).
  exact Hk.
Qed.

Lemma sorted_rank_ge (t : list Q) (c : Q) (k : nat) :
  StronglySorted Qle t -> (k < length t)%nat ->
  (length t <= k + count_ge c t)%nat -> c <= nth k t 0.
Proof.
  intros S Hl Hk. apply Qltb_ge.
  destruct (Qltb (nth k t 0) c) eqn:E; [|reflexivity]. exfalso.
  assert (Dn : forall x y, x <= y -> Qltb y c = true -> Qltb x c = true).
  { intros x y L T. apply Qltb_lt. apply Qltb_lt in T. lra. }
  apply (proj1 (nth_sorted_down Q Qle (fun x => Qltb x c) t Dn S k 0 Hl)) in E.
  pose proof (count_lt_ge c t). lia.
Qed.

(** ** The scenario of the two injected values *)

Section Scenario.

Variable xs : list Q.
Variable v : list f64.
Hypothesis rows : Permutation v (Some (-1000) :: Some 1000 :: map Some xs).
Hypothesis size : length xs = 100%nat.
Hypothesis range : forallb (fun x => Qle_bool 0 x && Qle_bool x 100) xs = true.
Hypothesis low_quarter : (26 <= count_le (75 # 2) xs)%nat.
Hypothesis high_quarter : (26 <= count_ge (125 # 2) xs)%nat.

Let t := sort xs.
Let s := sort (dropna v).

Lemma scenario_range : Forall (fun x => 0 <= x /\ x <= 100) t.
Proof.
  eapply Permutation_Forall; [apply sort_perm|].
  rewrite forallb_forall in range. apply Forall_forall. intros x Hx.
  specialize (range x Hx). apply andb_true_iff in range.
  destruct range as [A B]. now rewrite !Qle_bool_iff in *.
Qed.

Lemma scenario_t_length : length t = 100%nat.
Proof. unfold t. now rewrite sort_length. Qed.

Lemma scenario_t_nth (k : nat) : (k < 100)%nat -> 0 <= nth k t 0 <= 100.
Proof.
  intro Hk. pose proof scenario_range as R. rewrite Forall_forall in R.
  apply R, nth_In. now rewrite scenario_t_length.
Qed.

Lemma scenario_t_low (k : nat) : (k < 26)%nat -> nth k t 0 <= 75 # 2.
Proof.
  intro Hk. apply sorted_rank_le; [apply sort_sorted|].
  unfold count_le, t. rewrite <- (filter_length_perm _ _ _ (sort_perm xs)).
  unfold count_le in low_quarter. lia.
Qed.

Lemma scenario_t_high (k : nat) : (74 <= k < 100)%nat -> 125 # 2 <= nth k t 0.
Proof.
  intro Hk. apply sorted_rank_ge; [apply sort_sorted | rewrite scenario_t_length; lia |].
  rewrite scenario_t_length.
  unfold count_ge, t. rewrite <- (filter_length_perm _ _ _ (sort_perm xs)).
  unfold count_ge in high_quarter. lia.
Qed.

Lemma scenario_sorted : StronglySorted Qle (-1000 :: t ++ [1000]).
Proof.
  pose proof scenario_range as R.
  constructor.
  - assert (G : forall l, StronglySorted Qle l -> Forall (fun x => 0 <= x /\ x <= 100) l ->
                StronglySorted Qle (l ++ [1000])).
    { induction 1 as [|x l Sl IH Hx]; intro F; simpl; [repeat constructor|].
      inversion F as [|? ? Fx Fl]; subst. constructor; [now apply IH|].
      apply Forall_app. split; [exact Hx|]. constructor; [lra | constructor]. }
    apply G; [apply sort_sorted | exact R].
  - apply Forall_app. split.
    + eapply Forall_impl; [|exact R]. intros x [A B]. lra.
    + constructor; [lra | constructor].
Qed.

Lemma scenario_perm : Permutation s (-1000 :: t ++ [1000]).
Proof.
  unfold s. eapply perm_trans; [apply Permutation_sym, sort_perm|].
  eapply perm_trans; [apply dropna_perm, rows|].
  simpl. rewrite dropna_some. apply perm_skip.
  eapply perm_trans; [apply perm_skip, (sort_perm xs)|].
  fold t. change (1000 :: t) with ([1000] ++ t). apply Permutation_app_comm.
Qed.

Lemma scenario_s_length : length s = 102%nat.
Proof.
  rewrite (Permutation_length scenario_perm). simpl.
  rewrite length_app, scenario_t_length. reflexivity.
Qed.

Lemma scenario_s_nth (k : nat) :
  (k < 100)%nat -> nth (S k) s 0 == nth k t 0.
Proof.
  intro Hk.
  rewrite (sorted_perm_nth s (-1000 :: t ++ [1000]) (sort_sorted _)
             scenario_sorted scenario_perm (S k) 0)
    by (rewrite scenario_s_length; lia).
  simpl. rewrite app_nth1 by (rewrite scenario_t_length; lia). reflexivity.
Qed.

Lemma scenario_quartiles_range :
  exists q1 q3 : Q,
    quantile (1 # 4) v = Some q1 /\ quantile (3 # 4) v = Some q3
    /\ 0 <= q1 /\ q1 <= 100 /\ 0 <= q3 /\ q3 <= 100.
Proof.
  assert (Ne : s <> []).
  { intro E. pose proof scenario_s_length as L. rewrite E in L. discriminate. }
  destruct (interpolate_bounds (1 # 4) s) as (q1 & E1 & A1 & B1);
    [lra | lra | apply sort_sorted | exact Ne |].
  destruct (interpolate_bounds (3 # 4) s) as (q3 & E3 & A3 & B3);
    [lra | lra | apply sort_sorted | exact Ne |].
  rewrite scenario_s_length in A1, B1, A3, B3.
  change (Z.to_nat (Qfloor (inject_Z (Z.of_nat (102 - 1)) * (1 # 4)))) with 25%nat in A1, B1.
  change (Z.to_nat (Qfloor (inject_Z (Z.of_nat (102 - 1)) * (3 # 4)))) with 75%nat in A3, B3.
  change (Nat.min (25 + 1) (102 - 1)) with 26%nat in B1.
  change (Nat.min (75 + 1) (102 - 1)) with 76%nat in B3.
  rewrite scenario_s_nth in A1, B1, A3, B3 by lia.
  exists q1, q3. split; [exact E1|]. split; [exact E3|].
  pose proof (scenario_t_nth 24 ltac:(lia)).
  pose proof (scenario_t_nth 25 ltac:(lia)).
  pose proof (scenario_t_nth 74 ltac:(lia)).
  pose proof (scenario_t_nth 75 ltac:(lia)).
  repeat split; lra.
Qed.

(** Whatever the 100 values of [[0, 100]] are, the two injected values are
    counted. *)
Lemma scenario_injected : (2 <= outlier_count v)%nat.
Proof.
  destruct scenario_quartiles_range as (q1 & q3 & E1 & E3 & A1 & B1 & A3 & B3).
  unfold outlier_count, lower_cut, upper_cut. rewrite E1, E3.
  cbn [fmul flift2 fadd fsub].
  set (lo := q1 - (3 # 2) * (q3 - q1)). set (hi := q3 + (3 # 2) * (q3 - q1)).
  rewrite (filter_length_perm _ _ _ rows).
  assert (T : forall x, flt (Some x) (Some lo) || fgt (Some x) (Some hi) = true
                        <-> x < lo \/ hi < x).
  { intro x. unfold fgt, flt. now rewrite orb_true_iff, !Qltb_lt. }
  cbn [filter].
  rewrite (proj2 (T (-1000))) by (left; unfold lo; lra).
  rewrite (proj2 (T 1000)) by (right; unfold hi; lra).
  cbn [length]. lia.
Qed.

Lemma scenario_quartiles :
  exists q1 q3 : Q,
    quantile (1 # 4) v = Some q1 /\ quantile (3 # 4) v = Some q3
    /\ 0 <= q1 /\ q1 <= 75 # 2 /\ 125 # 2 <= q3 /\ q3 <= 100.
Proof.
  assert (Ne : s <> []).
  { intro E. pose proof scenario_s_length as L. rewrite E in L. discriminate. }
  destruct (interpolate_bounds (1 # 4) s) as (q1 & E1 & A1 & B1);
    [lra | lra | apply sort_sorted | exact Ne |].
  destruct (interpolate_bounds (3 # 4) s) as (q3 & E3 & A3 & B3);
    [lra | lra | apply sort_sorted | exact Ne |].
  rewrite scenario_s_length in A1, B1, A3, B3.
  change (Z.to_nat (Qfloor (inject_Z (Z.of_nat (102 - 1)) * (1 # 4)))) with 25%nat in A1, B1.
  change (Z.to_nat (Qfloor (inject_Z (Z.of_nat (102 - 1)) * (3 # 4)))) with 75%nat in A3, B3.
  change (Nat.min (25 + 1) (102 - 1)) with 26%nat in B1.
  change (Nat.min (75 + 1) (102 - 1)) with 76%nat in B3.
  rewrite scenario_s_nth in A1, B1, A3, B3 by lia.
  exists q1, q3. split; [exact E1|]. split; [exact E3|].
  pose proof (scenario_t_nth 24 ltac:(lia)).
  pose proof (scenario_t_low 25 ltac:(lia)).
  pose proof (scenario_t_high 74 ltac:(lia)).
  pose proof (scenario_t_nth 75 ltac:(lia)).
  repeat split; lra.
Qed.

Lemma scenario_count : outlier_count v = 2%nat.
Proof.
  destruct scenario_quartiles as (q1 & q3 & E1 & E3 & A1 & B1 & A3 & B3).
  unfold outlier_count, lower_cut, upper_cut. rewrite E1, E3. simpl fsub. simpl fadd.
  cbn [fmul flift2 fadd fsub].
  set (lo := q1 - (3 # 2) * (q3 - q1)). set (hi := q3 + (3 # 2) * (q3 - q1)).
  rewrite (filter_length_perm _ _ _ rows).
  assert (T : forall x, flt (Some x) (Some lo) || fgt (Some x) (Some hi) = true
                        <-> x < lo \/ hi < x).
  { intro x. unfold fgt, flt. now rewrite orb_true_iff, !Qltb_lt. }
  cbn [filter].
  rewrite (proj2 (T (-1000))) by (left; unfold lo; lra).
  rewrite (proj2 (T 1000)) by (right; unfold hi; lra).
  cbn [length]. do 2 f_equal.
  rewrite filter_none; [reflexivity|].
  intros y Hy. apply in_map_iff in Hy. destruct Hy as (x & <- & Hx).
  destruct (flt (Some x) (Some lo) || fgt (Some x) (Some hi)) eqn:E; [|reflexivity].
  exfalso. apply T in E.
  rewrite forallb_forall in range. specialize (range x Hx).
  apply andb_true_iff in range. destruct range as [R0 R1].
  rewrite Qle_bool_iff in R0, R1. unfold lo, hi in E. lra.
Qed.

End Scenario.

(** C6.  Scenario: a column [X] of 102 rows, the injected values -1000 and
    1000 and 100 values of [[0, 100]] in any row order, the 100 values spread
    over the range as a uniform sample is: at least 26 of them are at most
    37.5 and at least 26 are at least 62.5 (the quartiles of the uniform law
    are 25 and 75).  Then [count_outliers] reports exactly 2 outliers for
    [X]. *)
Theorem count_outliers_scenario (df : DataFrame) (v : list f64) (xs : list Q)
        (n : nat) :
  NoDup (keys df) -> In ("X"%string, NumCol v) df ->
  Permutation v (Some (-1000) :: Some 1000 :: map Some xs) ->
  length xs = 100%nat ->
  forallb (fun x => Qle_bool 0 x && Qle_bool x 100) xs = true ->
  (26 <= count_le (75 # 2) xs)%nat ->
  (26 <= count_ge (125 # 2) xs)%nat ->
  (In ("X"%string, n) (or_table (outlier_report df)) <-> n = 2%nat).
Proof.
  intros N I P L R Lo Hi.
  rewrite (outlier_table_entry df "X" v n N I).
  now rewrite (scenario_count xs v P L R Lo Hi).
Qed.

Lemma count_outliers_scenario_witness :
  In ("X"%string, 2%nat) (or_table (outlier_report scenario_frame))
  <-> 2%nat = 2%nat.
Proof.
  apply (count_outliers_scenario scenario_frame scenario_X even_grid 2).
  - repeat constructor. simpl. tauto.
  - left. reflexivity.
  - apply Permutation_refl.
  - reflexivity.
  - vm_compute. reflexivity.
  - apply Nat.leb_le. vm_compute. reflexivity.
  - apply Nat.leb_le. vm_compute. reflexivity.
Defined.

(** The table of the scenario frame. *)
Example count_outliers_scenario_table :
  or_table (outlier_report scenario_frame) = [("X"%string, 2%nat)].
Proof. vm_compute. reflexivity. Qed.

(** The spread matters: with the 100 values clumped (99 times 50, once 0)
    both quartiles are 50, the cut-offs coincide and the value 0 is counted
    as well. *)
Example count_outliers_clumped :
  or_table (outlier_report [("X"%string, NumCol clumped_X)]) = [("X"%string, 3%nat)].
Proof. vm_compute. reflexivity. Qed.

(** ** Quantiles are monotone in the level *)

Lemma interpolate_value (p : Q) (s : list Q) :
  0 <= p -> p <= 1 -> s <> [] ->
  let pos := inject_Z (Z.of_nat (length s - 1)) * p in
  let k := Z.to_nat (Qfloor pos) in
  interpolate p s
  = Some (nth k s 0
          + (nth (Nat.min (k + 1) (length s - 1)) s 0 - nth k s 0)
            * (pos - inject_Z (Z.of_nat k)))
  /\ (k <= length s - 1)%nat
  /\ inject_Z (Z.of_nat k) <= pos /\ pos < inject_Z (Z.of_nat k) + 1.
Proof.
  intros P0 P1 Ne pos k. destruct s as [|x0 s]; [congruence|].
  unfold interpolate.
  set (n := length (x0 :: s)) in *.
  destruct (floor_index (n - 1) p P0 P1) as [Hi Hk]. fold pos in Hi, Hk. fold k in Hi, Hk.
  assert (L : (0 < n)%nat) by (unfold n; simpl; lia).
  fold pos. fold k.
  rewrite (nth_indep (x0 :: s) x0 0) by (fold n; lia).
  rewrite (nth_indep (x0 :: s) x0 0 (n := Nat.min _ _)) by (fold n; lia).
  rewrite Hi. split; [reflexivity|]. split; [exact Hk|].
  split; [apply Qfloor_le|].
  pose proof (Qlt_floor pos) as Lt. rewrite inject_Z_plus in Lt. exact Lt.
Qed.

Lemma interpolate_mono (p p' : Q) (s : list Q) :
  0 <= p -> p <= p' -> p' <= 1 -> StronglySorted Qle s -> s <> [] ->
  exists x x' : Q,
    interpolate p s = Some x /\ interpolate p' s = Some x' /\ x <= x'.
Proof.
  intros P0 PP P1 S Ne.
  destruct (interpolate_value p s) as (E & Hk & A & B); [lra | lra | exact Ne |].
  destruct (interpolate_value p' s) as (E' & Hk' & A' & B'); [lra | lra | exact Ne |].
  set (n1 := inject_Z (Z.of_nat (length s - 1))) in *.
  assert (N0 : 0 <= n1).
  { unfold n1. change 0 with (inject_Z 0). rewrite <- Zle_Qle. lia. }
  set (k := Z.to_nat (Qfloor (n1 * p))) in *.
  set (k' := Z.to_nat (Qfloor (n1 * p'))) in *.
  assert (Hs : (0 < length s)%nat) by (destruct s; [congruence | simpl; lia]).
  assert (Kk : (k <= k')%nat).
  { unfold k, k'. apply Z2Nat.inj_le.
    - change 0%Z with (Qfloor 0). apply Qfloor_resp_le. nra.
    - change 0%Z with (Qfloor 0). apply Qfloor_resp_le. nra.
    - apply Qfloor_resp_le. nra. }
  eexists. eexists. split; [exact E|]. split; [exact E'|].
  pose proof (sorted_nth_mono Q Qle Qle_refl s S) as Mono.
  assert (M1 : nth k s 0 <= nth (Nat.min (k + 1) (length s - 1)) s 0)
    by (apply Mono; lia).
  assert (M2 : nth k' s 0 <= nth (Nat.min (k' + 1) (length s - 1)) s 0)
    by (apply Mono; lia).
  assert (U : n1 * p <= n1 * p') by nra.
  clear E E'. clearbody k k'.
  set (u := n1 * p) in *. set (u' := n1 * p') in *. clearbody u u'.
  destruct (Nat.eq_dec k k') as [Ek|Nk].
  - subst k'.
    set (a := nth k s 0) in *. set (b := nth (Nat.min (k + 1) (length s - 1)) s 0) in *.
    assert (G : 0 <= (b - a) * (u' - u)) by (apply Qmult_le_0_compat; lra).
    lra.
  - assert (M3 : nth (Nat.min (k + 1) (length s - 1)) s 0 <= nth k' s 0)
      by (apply Mono; lia).
    set (a := nth k s 0) in *. set (b := nth (Nat.min (k + 1) (length s - 1)) s 0) in *.
    set (a' := nth k' s 0) in *.
    set (b' := nth (Nat.min (k' + 1) (length s - 1)) s 0) in *.
    assert (G : 0 <= (b - a) * (inject_Z (Z.of_nat k) + 1 - u))
      by (apply Qmult_le_0_compat; lra).
    assert (G' : 0 <= (b' - a') * (u' - inject_Z (Z.of_nat k')))
      by (apply Qmult_le_0_compat; lra).
    lra.
Qed.

Lemma quantile_mono (p p' : Q) (v : list f64) :
  0 <= p -> p <= p' -> p' <= 1 -> fle (quantile p v) (quantile p' v).
Proof.
  intros P0 PP P1. unfold quantile.
  destruct (sort (dropna v)) as [|x0 s] eqn:E; [exact I|].
  assert (S : StronglySorted Qle (x0 :: s)) by (rewrite <- E; apply sort_sorted).
  destruct (interpolate_mono p p' (x0 :: s) P0 PP P1 S ltac:(discriminate))
    as (x & x' & -> & -> & L).
  exact L.
Qed.

(** ** [unique] *)

Lemma feqb_refl (a : f64) : feqb a a = true.
Proof. destruct a; simpl; [apply Qeq_bool_refl | reflexivity]. Qed.


Lemma feqb_trans (a b c : f64) :
  feqb a b = true -> feqb b c = true -> feqb a c = true.
Proof.
  destruct a, b, c; simpl; try discriminate; auto. apply Qeq_bool_trans.
Qed.

Lemma unique_incl (l : list f64) (a : f64) : In a (unique l) -> In a l.
Proof.
  revert a. induction l as [|x t IH]; simpl; intros a; [tauto|].
  intros [E|I]; [now left|]. right. apply IH. apply filter_In in I. tauto.
Qed.

Lemma unique_covers (l : list f64) (a : f64) :
  In a l -> exists b, In b (unique l) /\ feqb b a = true.
Proof.
  induction l as [|x t IH]; simpl; [tauto|].
  intros [E|I].
  - subst. exists a. split; [now left | apply feqb_refl].
  - destruct (IH I) as (b & Hb & Eb).
    destruct (feqb x b) eqn:X.
    + exists x. split; [now left | eapply feqb_trans; eauto].
    + exists b. split; [|exact Eb]. right. apply filter_In. now rewrite X.
Qed.

Lemma unique_hd (l : list f64) : hd NaN (unique l) = hd NaN l.
Proof. destruct l; reflexivity. Qed.

Lemma unique_length (l : list f64) : (length (unique l) <= length l)%nat.
Proof.
  induction l as [|x t IH]; simpl; [lia|].
  pose proof (filter_length_le (fun y => negb (feqb x y)) (unique t)). lia.
Qed.

Lemma filter_full {A} (f : A -> bool) (l : list A) :
  length (filter f l) = length l -> filter f l = l.
Proof.
  induction l as [|x t IH]; simpl; [reflexivity|].
  pose proof (filter_length_le f t).
  destruct (f x); simpl; intro E; [f_equal; apply IH; lia | lia].
Qed.

Lemma unique_fixed (l : list f64) : length (unique l) = length l -> unique l = l.
Proof.
  induction l as [|x t IH]; simpl; [reflexivity|]. intro E.
  pose proof (filter_length_le (fun y => negb (feqb x y)) (unique t)).
  pose proof (unique_length t).
  rewrite filter_full by lia. f_equal. apply IH. lia.
Qed.

Lemma filter_sorted {A} (R : A -> A -> Prop) (f : A -> bool) (l : list A) :
  StronglySorted R l -> StronglySorted R (filter f l).
Proof.
  induction 1 as [|x t St IH Hx]; simpl; [constructor|].
  destruct (f x); [|exact IH]. constructor; [exact IH|].
  apply Forall_forall. intros y Hy. apply filter_In in Hy.
  rewrite Forall_forall in Hx. now apply Hx.
Qed.

Lemma unique_strict (l : list f64) :
  StronglySorted fle l -> StronglySorted strictly_below (unique l).
Proof.
  induction 1 as [|x t St IH Hx]; simpl; constructor.
  - now apply filter_sorted.
  - apply Forall_forall. intros y Hy. apply filter_In in Hy.
    destruct Hy as [Hy Ny]. apply negb_true_iff in Ny.
    rewrite Forall_forall in Hx. split; [|exact Ny].
    apply Hx. now apply unique_incl.
Qed.


(** ** Truncation toward zero *)





(** ** [qcut] with ten quantile bins *)

Lemma linspace10_sorted :
  StronglySorted (fun p p' : Q => 0 <= p /\ p <= p' /\ p' <= 1) (linspace 10).
Proof.
  unfold linspace. simpl.
  repeat constructor; vm_compute; discriminate.
Qed.

Lemma decile_edges_sorted (x : list f64) : StronglySorted fle (decile_edges x).
Proof.
  unfold decile_edges.
  apply (sorted_map_mono (fun p p' : Q => 0 <= p /\ p <= p' /\ p' <= 1) fle);
    [|apply linspace10_sorted].
  intros p p' (A & B & C). now apply quantile_mono.
Qed.

Lemma qcut_10 (x : list f64) :
  qcut x 10 = (map (bin_code (unique (decile_edges x))) x, unique (decile_edges x)).
Proof.
  unfold qcut. fold (decile_edges x).
  assert (L : length (decile_edges x) = 11%nat) by reflexivity.
  rewrite L. cbn [Nat.eqb negb andb].
  destruct (Nat.ltb (length (unique (decile_edges x))) 11) eqn:E.
  - reflexivity.
  - rewrite andb_false_l. apply Nat.ltb_ge in E.
    pose proof (unique_length (decile_edges x)) as U.
    rewrite unique_fixed by lia. reflexivity.
Qed.

Lemma qcut_edges_strict (x : list f64) :
  StronglySorted strictly_below (unique (decile_edges x)).
Proof. apply unique_strict, decile_edges_sorted. Qed.

Lemma strict_is_ascending (l : list f64) :
  StronglySorted strictly_below l -> StronglySorted fle l.
Proof.
  induction 1 as [|x t St IH Hx]; constructor; [exact IH|].
  eapply Forall_impl; [|exact Hx]. intros y [L _]. exact L.
Qed.

(** ** [rmap] *)

Lemma rmap_ok {A B} (f : A -> result B) (l : list A) (ys : list B) :
  rmap f l = Ok ys -> Forall2 (fun x y => f x = Ok y) l ys.
Proof.
  revert ys. induction l as [|x t IH]; simpl; intros ys E.
  - inversion E. constructor.
  - destruct (f x) as [y|e] eqn:Fx; simpl in E; [|discriminate].
    destruct (rmap f t) as [ys'|e] eqn:Ft; simpl in E; [|discriminate].
    inversion E; subst. constructor; [exact Fx | now apply IH].
Qed.

(** ** What a successful run of the binning holds *)

Lemma fraud_bins_ok (df : DataFrame) (b : FraudBins) :
  fraud_bins df = Ok b ->
  exists (fr : Column) (v : list f64),
    lookup "FraudResult"%string df = Some fr
    /\ lookup "Amount"%string df = Some (NumCol v)
    /\ count_true (fraud_mask fr) <> 0%nat
    /\ fb_fraud b = sort_cells (take_rows (fraud_mask fr) v)
    /\ fb_edges b = unique (decile_edges (fb_fraud b))
    /\ Forall2 (fun p l => make_label p = Ok l) (edge_pairs (fb_edges b)) (fb_labels b)
    /\ has_dup (map label_text (fb_labels b)) = false
    /\ fb_counts b = value_counts (map label_text (fb_labels b))
                                  (map (bin_code (fb_edges b)) (fb_fraud b))
    /\ fb_texts b = map (fun c => lookup c (fb_counts b)) (keys (fb_counts b)).
Proof.
  unfold fraud_bins, get_column.
  destruct (lookup "FraudResult"%string df) as [fr|] eqn:F; cbn [rbind];
    [|discriminate].
  destruct (Nat.eqb (count_true (fraud_mask fr)) 0) eqn:Z; [discriminate|].
  apply Nat.eqb_neq in Z.
  destruct (lookup "Amount"%string df) as [[v|o]|] eqn:A; cbn [rbind];
    try discriminate.
  rewrite qcut_10.
  set (x := sort_cells (take_rows (fraud_mask fr) v)).
  set (edges := unique (decile_edges x)).
  destruct (rmap make_label (edge_pairs edges)) as [labels|e] eqn:R; cbn [rbind];
    [|discriminate].
  unfold rename_categories.
  destruct (negb (Nat.eqb (length (map label_text labels)) (length edges - 1)));
    cbn [rbind]; [discriminate|].
  destruct (has_dup (map label_text labels)) eqn:D; cbn [rbind]; [discriminate|].
  intro E. inversion E; subst b; clear E.
  cbn [fb_fraud fb_edges fb_labels fb_counts fb_texts].
  exists fr, v. repeat split; auto. now apply rmap_ok.
Qed.

(** ** The extreme edges bracket every present value *)

Lemma in_dropna (x : list f64) (q : Q) : In q (dropna x) <-> In (Some q) x.
Proof.
  induction x as [|[y|] t IH]; simpl; [tauto | | ].
  - rewrite IH. split; intros [E|I]; auto; left; congruence.
  - rewrite IH. split; [auto | intros [E|I]; [discriminate | exact I]].
Qed.

Lemma sorted_extremes (s : list Q) (q : Q) :
  StronglySorted Qle s -> In q s ->
  nth 0 s 0 <= q /\ q <= nth (length s - 1) s 0.
Proof.
  intros S I. destruct (In_nth s q 0 I) as (i & Hi & <-).
  split; apply (sorted_nth_mono Q Qle Qle_refl s S); lia.
Qed.

Lemma quantile_min (p : Q) (x : list f64) :
  p == 0 -> dropna x <> [] ->
  exists h : Q, quantile p x = Some h /\ h == nth 0 (sort (dropna x)) 0.
Proof.
  intros Hp Ne. unfold quantile. set (s := sort (dropna x)).
  assert (Ns : s <> []).
  { intro E. apply Ne. apply length_zero_iff_nil.
    rewrite <- (sort_length (dropna x)). fold s. now rewrite E. }
  destruct (interpolate_value p s) as (E & _); [lra | lra | exact Ns |].
  eexists. split; [exact E|].
  set (n1 := inject_Z (Z.of_nat (length s - 1))).
  assert (P0 : n1 * p == 0) by (rewrite Hp; ring).
  rewrite (Qfloor_comp _ _ P0). change (Z.to_nat (Qfloor 0)) with 0%nat.
  rewrite P0. change (inject_Z (Z.of_nat 0)) with 0. ring.
Qed.

Lemma quantile_max (p : Q) (x : list f64) :
  p == 1 -> dropna x <> [] ->
  exists m : Q, quantile p x = Some m
                /\ nth (length (sort (dropna x)) - 1) (sort (dropna x)) 0 <= m.
Proof.
  intros Hp Ne. unfold quantile. set (s := sort (dropna x)).
  assert (Ns : s <> []).
  { intro E. apply Ne. apply length_zero_iff_nil.
    rewrite <- (sort_length (dropna x)). fold s. now rewrite E. }
  destruct (interpolate_bounds p s) as (m & E & A & _);
    [lra | lra | apply sort_sorted | exact Ns |].
  exists m. split; [exact E|].
  set (n1 := inject_Z (Z.of_nat (length s - 1))) in *.
  assert (P1 : n1 * p == n1) by (rewrite Hp; ring).
  rewrite (Qfloor_comp _ _ P1) in A. unfold n1 in A.
  rewrite Qfloor_Z, Nat2Z.id in A. exact A.
Qed.


(** ** Every present value falls into a bin *)



Lemma bin_code_missing (edges : list f64) : bin_code edges NaN = None.
Proof. reflexivity. Qed.

(** ** The counts of the categories *)






Lemma edge_pairs_length (e : list f64) : length (edge_pairs e) = (length e - 1)%nat.
Proof.
  unfold edge_pairs. rewrite length_combine.
  destruct e; cbn [tl length]; lia.
Qed.



(** ** [fraud_analysis] *)





(** The fraud scenario of the specification: the five counts sum to 5. *)
Example fraud_scenario_total :
  map snd (fb_counts five_frauds_bins) = [1; 0; 1; 0; 1; 0; 0; 1; 0; 1]%nat
  /\ sum_counts (fb_counts five_frauds_bins) = 5%nat.
Proof. split; reflexivity. Qed.


(** ** Computations that only read the dataset *)

Lemma emits_refl (w : World) : emits w w [] [].
Proof. unfold emits. now rewrite !app_nil_r. Qed.

Lemma emits_trans (w w' w'' : World) ps ds ps' ds' :
  emits w w' ps ds -> emits w' w'' ps' ds' -> emits w w'' (ps ++ ps') (ds ++ ds').
Proof.
  intros (S1 & P1 & C1) (S2 & P2 & C2). unfold emits.
  rewrite S2, S1, P2, P1, C2, C1, !app_assoc. auto.
Qed.

Lemma data_only_ret {A} (a : A) : data_only (ret a).
Proof.
  intros w1 w2 _. exists [], []. simpl. auto using emits_refl.
Qed.

Lemma data_only_raise {A} (e : exn) : data_only (@raise A e).
Proof.
  intros w1 w2 _. exists [], []. simpl. auto using emits_refl.
Qed.

Lemma data_only_lift {A} (r : result A) : data_only (lift r).
Proof.
  intros w1 w2 _. exists [], []. simpl. auto using emits_refl.
Qed.

Lemma data_only_print (p : Printed) : data_only (print p).
Proof.
  intros w1 w2 _. exists [p], []. unfold emits. simpl.
  now rewrite !app_nil_r.
Qed.

Lemma data_only_draw (d : Draw) : data_only (draw d).
Proof.
  intros w1 w2 _. exists [], [d]. unfold emits. simpl.
  now rewrite !app_nil_r.
Qed.

Lemma data_only_bind {A B} (m : M A) (k : A -> M B) :
  data_only m -> (forall a, data_only (k a)) -> data_only (bind m k).
Proof.
  intros Hm Hk w1 w2 E.
  destruct (Hm w1 w2 E) as (ps & ds & R & E1 & E2).
  unfold bind.
  destruct (m w1) as [r1 w1'], (m w2) as [r2 w2']. simpl in *. subst r2.
  destruct r1 as [a|e].
  - assert (E' : data (self w1') = data (self w2')).
    { destruct E1 as (S1 & _), E2 as (S2 & _). now rewrite S1, S2. }
    destruct (Hk a w1' w2' E') as (ps' & ds' & R' & E1' & E2').
    exists (ps ++ ps'), (ds ++ ds'). split; [exact R'|].
    split; eapply emits_trans; eauto.
  - exists ps, ds. simpl. auto.
Qed.

(** Reading [self.data] hands the same frame to the rest of the method in
    both worlds. *)
Lemma data_only_read {B} (k : DataFrame -> M B) :
  (forall d, data_only (k d)) -> data_only (bind self_data k).
Proof.
  intros Hk w1 w2 E. unfold bind, self_data. rewrite <- E.
  apply (Hk (data (self w1)) w1 w2 E).
Qed.

Lemma data_only_for_enumerate {A} (body : nat -> A -> M nat) (l : list A) :
  (forall i x, data_only (body i x)) ->
  forall i prev, data_only (for_enumerate i l body prev).
Proof.
  intro Hb. induction l as [|x t IH]; intros i prev; simpl.
  - apply data_only_ret.
  - apply data_only_bind; [apply Hb | intro idx; apply IH].
Qed.

Lemma data_only_for_each {A} (body : A -> M unit) (l : list A) :
  (forall x, data_only (body x)) -> data_only (for_each l body).
Proof.
  intro Hb. induction l as [|x t IH]; simpl.
  - apply data_only_ret.
  - apply data_only_bind; [apply Hb | intros _; exact IH].
Qed.

Lemma data_only_local (name : string) (v : option nat) : data_only (local name v).
Proof. destruct v; simpl; [apply data_only_ret | apply data_only_raise]. Qed.

Lemma data_only_subplots (ncols nrows : nat) : data_only (subplots ncols nrows).
Proof.
  unfold subplots. destruct (Nat.eqb ncols 0 || Nat.eqb nrows 0).
  - apply data_only_raise.
  - apply data_only_bind; [apply data_only_draw|]. intros _.
    destruct (Nat.eqb (ncols * nrows) 1);
      [apply data_only_raise | apply data_only_ret].
Qed.

Lemma data_only_barplot (ax : Axes) (bars : list (Cell * Val)) :
  data_only (barplot ax bars).
Proof.
  unfold barplot. apply data_only_bind; [apply data_only_draw|].
  intros _. apply data_only_ret.
Qed.

Lemma data_only_annotate ax patches value prev :
  data_only (annotate ax patches value prev).
Proof.
  unfold annotate. apply data_only_for_enumerate. intros i _.
  apply data_only_bind; [apply data_only_draw | intros _; apply data_only_ret].
Qed.

Create HintDb reads discriminated.

#[local] Hint Resolve data_only_ret data_only_raise data_only_lift data_only_print
  data_only_draw data_only_local data_only_subplots data_only_barplot
  data_only_annotate : reads.

Ltac reads_step :=
  first [ apply data_only_read; intro
        | apply data_only_bind; [|intro]
        | apply data_only_for_enumerate; intros
        | apply data_only_for_each; intros
        | solve [auto with reads] ].

Ltac reads := repeat reads_step.

Section OperationsRead.

Context `{Primitives}.






End OperationsRead.




(** ** Running the drawing loops *)

Lemma add_canvas_nil (w : World) : add_canvas w [] = w.
Proof. destruct w. unfold add_canvas. simpl. now rewrite app_nil_r. Qed.

Lemma add_canvas_app (w : World) (a b : list Draw) :
  add_canvas (add_canvas w a) b = add_canvas w (a ++ b).
Proof. unfold add_canvas. simpl. now rewrite app_assoc. Qed.

Lemma draw_run (d : Draw) (w : World) : draw d w = (Ok tt, add_canvas w [d]).
Proof. reflexivity. Qed.

Lemma bind_ok {A B} (m : M A) (k : A -> M B) (w w' : World) (a : A) :
  m w = (Ok a, w') -> bind m k w = k a w'.
Proof. intro E. unfold bind. now rewrite E. Qed.

Lemma bind_raise {A B} (m : M A) (k : A -> M B) (w w' : World) (e : exn) :
  m w = (Raise e, w') -> bind m k w = (Raise e, w').
Proof. intro E. unfold bind. now rewrite E. Qed.

Lemma texts_run (ax : Axes) (value : nat -> Val) (n : nat) :
  forall (i a : nat) (prev : option nat) (w : World),
    for_enumerate i (seq a n)
      (fun idx _ => draw (Text ax idx (value idx)) ;;; ret idx) prev w
    = (Ok (match n with O => prev | S m => Some (i + m)%nat end),
       add_canvas w (map (fun j => Text ax j (value j)) (seq i n))).
Proof.
  induction n as [|n IH]; intros i a prev w; cbn [for_enumerate seq map].
  - unfold ret. now rewrite add_canvas_nil.
  - unfold bind at 1. unfold bind at 1. rewrite draw_run. cbn [ret].
    rewrite IH, add_canvas_app. cbn [app].
    destruct n; [rewrite Nat.add_0_r | rewrite <- Nat.add_succ_comm]; reflexivity.
Qed.

Lemma annotate_run (ax : Axes) (n : nat) (value : nat -> Val) (prev : option nat)
      (w : World) :
  annotate ax n value prev w
  = (Ok (match n with O => prev | S m => Some m end),
     add_canvas w (map (fun j => Text ax j (value j)) (seq 0 n))).
Proof. unfold annotate. rewrite texts_run. destruct n; reflexivity. Qed.

Lemma for_each_draw {A} (f : A -> Draw) (l : list A) (w : World) :
  for_each l (fun x => draw (f x)) w = (Ok tt, add_canvas w (map f l)).
Proof.
  revert w. induction l as [|x t IH]; intro w; simpl.
  - now rewrite add_canvas_nil.
  - unfold bind. rewrite draw_run, IH, add_canvas_app. reflexivity.
Qed.

Lemma categorical_chart_run (axes : list Axes) (idx : nat) (column : string)
      (w : World) :
  categorical_chart axes idx column w
  = match lookup column (data (self w)) with
    | Some c => (Ok (idx_after idx (length (sort_sizes (groupby_size c)))),
                 add_canvas w (chart_events (nth idx axes Gca) column c))
    | None => (Raise (KeyError column), w)
    end.
Proof.
  unfold categorical_chart, bind at 1, self_data, get_column.
  destruct (lookup column (data (self w))) as [c|]; [|reflexivity].
  unfold bind at 1, lift. unfold bind at 1, barplot. unfold bind at 1.
  rewrite draw_run. cbn [ret].
  unfold bind at 1. rewrite draw_run.
  unfold bind at 1. rewrite draw_run.
  unfold bind at 1. rewrite draw_run.
  unfold bind at 1. rewrite annotate_run, !add_canvas_app, length_map.
  unfold chart_events.
  destruct (length (sort_sizes (groupby_size c))); reflexivity.
Qed.

Lemma chart_loop (axes : list Axes) (cols : list string) :
  forall (i : nat) (prev : option nat) (w : World),
    for_enumerate i cols (categorical_chart axes) prev w
    = (loop_idx (data (self w)) i cols prev,
       add_canvas w (loop_events axes (data (self w)) i cols)).
Proof.
  induction cols as [|c t IH]; intros i prev w; simpl.
  - now rewrite add_canvas_nil.
  - unfold bind at 1. rewrite categorical_chart_run.
    destruct (lookup c (data (self w))) as [col|] eqn:L.
    + rewrite IH, add_canvas_app. reflexivity.
    + now rewrite add_canvas_nil.
Qed.

(** The whole of [categorical_distribution], call by call. *)
Lemma categorical_distribution_run (w : World) :
  categorical_distribution w
  = let d := data (self w) in
    let drawn := Subplots 2 2 :: loop_events grid4 d 0 columns_of_interest in
    match loop_idx d 0 columns_of_interest None with
    | Raise e => (Raise e, add_canvas w drawn)
    | Ok None => (Raise (NameError "idx"), add_canvas w drawn)
    | Ok (Some idx) =>
        (Ok tt,
         add_canvas w
           (drawn
            ++ map (fun unused => Delaxes (nth unused grid4 Gca))
                   (range (idx + 1) (length columns_of_interest))
            ++ [Suptitle "Distribution of Categorical Columns"; TightLayout]))
    end.
Proof.
  unfold categorical_distribution.
  change (ceil_sqrt (length columns_of_interest)) with 2%nat.
  change (ceil_div (length columns_of_interest) 2) with (Ok 2%nat).
  unfold bind at 1, lift. unfold bind at 1.
  change (subplots 2 2 w) with (Ok grid4, add_canvas w [Subplots 2 2]).
  unfold bind at 1. rewrite chart_loop.
  change (data (self (add_canvas w [Subplots 2 2]))) with (data (self w)).
  cbv zeta.
  destruct (loop_idx (data (self w)) 0 columns_of_interest None) as [[idx|]|e];
    rewrite ?add_canvas_app; try reflexivity.
  unfold bind at 1, local, ret. unfold bind at 1.
  rewrite for_each_draw, add_canvas_app.
  unfold bind at 1. rewrite draw_run, add_canvas_app. rewrite draw_run, add_canvas_app.
  simpl app. rewrite <- !app_assoc. reflexivity.
Qed.

(** ** What the plotting operations send to their output

    The records the properties above speak of are what the operations print
    and draw. *)

Lemma missing_values_run (w : World) :
  missing_values w
  = (Ok tt, {| self := self w;
               stdout := stdout w ++ [PMissing (missing_report (data (self w)))];
               canvas := canvas w |}).
Proof. reflexivity. Qed.

Lemma count_outliers_run (w : World) :
  let r := outlier_report (data (self w)) in
  count_outliers w
  = (Ok tt,
     add_canvas w
       ([Barplot Gca (map (fun p => (CStr (fst p), VInt (snd p))) (or_table r));
         SetTitle Gca "Plot of Skewness values of Numerical Columns";
         SetXlabel Gca "Numerical Columns";
         SetYlabel Gca "Num. of Outliers";
         TickParams Gca 45]
        ++ map (fun j => Text Gca j (opt_int (nth j (or_texts r) None)))
               (seq 0 (length (or_table r))))).
Proof.
  intro r. unfold count_outliers, bind at 1, self_data. fold r.
  unfold bind at 1, barplot. unfold bind at 1. rewrite draw_run. cbn [ret].
  unfold bind at 1. rewrite draw_run.
  unfold bind at 1. rewrite draw_run.
  unfold bind at 1. rewrite draw_run.
  unfold bind at 1. rewrite draw_run.
  unfold bind at 1. rewrite annotate_run, !add_canvas_app, length_map.
  reflexivity.
Qed.

Lemma describe_skewness_run `{Primitives} (w : World) :
  let plot := skewness_plot (data (self w)) in
  describe_skewness w
  = (Ok tt,
     add_canvas w
       ([Barplot Gca (map (fun p => (CStr (fst p), VFloat (snd p))) (sk_bars plot));
         SetTitle Gca "Plot of Skewness values of Numerical Columns";
         SetXlabel Gca "Numerical Columns";
         SetYlabel Gca "Skewness";
         TickParams Gca 45]
        ++ map (fun j => Text Gca j (VFloat (nth j (sk_texts plot) NaN)))
               (seq 0 (length (sk_bars plot))))).
Proof.
  intro plot. unfold describe_skewness, bind at 1, self_data. fold plot.
  unfold bind at 1, barplot. unfold bind at 1. rewrite draw_run. cbn [ret].
  unfold bind at 1. rewrite draw_run.
  unfold bind at 1. rewrite draw_run.
  unfold bind at 1. rewrite draw_run.
  unfold bind at 1. rewrite draw_run.
  unfold bind at 1. rewrite annotate_run, !add_canvas_app, length_map.
  reflexivity.
Qed.

Lemma fraud_analysis_run (w : World) :
  fraud_analysis w
  = match fraud_bins (data (self w)) with
    | Raise e => (Raise e, w)
    | Ok bins =>
        (Ok tt,
         add_canvas w
           ([Barplot Gca (map (fun p => (CStr (fst p), VInt (snd p)))
                              (fb_counts bins));
             SetTitle Gca "Plot of Skewness values of Numerical Columns";
             SetXlabel Gca "Transaction Amount Ranges";
             SetYlabel Gca "Num. Frauds";
             TickParams Gca 60]
            ++ map (fun j => Text Gca j (opt_int (nth j (fb_texts bins) None)))
                   (seq 0 (length (fb_counts bins)))))
    end.
Proof.
  unfold fraud_analysis, bind at 1, self_data. unfold bind at 1, lift.
  destruct (fraud_bins (data (self w))) as [bins|e]; [|reflexivity].
  unfold bind at 1, barplot. unfold bind at 1. rewrite draw_run. cbn [ret].
  unfold bind at 1. rewrite draw_run.
  unfold bind at 1. rewrite draw_run.
  unfold bind at 1. rewrite draw_run.
  unfold bind at 1. rewrite draw_run.
  unfold bind at 1. rewrite annotate_run, !add_canvas_app, length_map.
  reflexivity.
Qed.

(** ** A column that is referred to by name and is not there *)

Lemma loop_idx_missing (d : DataFrame) (cols : list string) :
  forall (i : nat) (prev : option nat),
    (exists c, In c cols /\ lookup c d = None) ->
    exists k, In k cols /\ lookup k d = None
              /\ loop_idx d i cols prev = Raise (KeyError k).
Proof.
  induction cols as [|c t IH]; intros i prev (c0 & I & L); simpl in *; [tauto|].
  destruct (lookup c d) as [col|] eqn:E.
  - destruct I as [<-|I]; [congruence|].
    destruct (IH (S i) (Some (idx_after i (length (sort_sizes (groupby_size col)))))
                 (ex_intro _ c0 (conj I L))) as (k & Ik & Lk & Ek).
    exists k. auto.
  - exists c. auto.
Qed.

Lemma fraud_bins_missing (d : DataFrame) :
  lookup "FraudResult"%string d = None \/ lookup "Amount"%string d = None ->
  exists k : string, fraud_bins d = Raise (KeyError k).
Proof.
  intros [F|A]; unfold fraud_bins, get_column.
  - rewrite F. cbn [rbind]. eauto.
  - destruct (lookup "FraudResult"%string d) as [fr|]; cbn [rbind]; [|eauto].
    destruct (Nat.eqb (count_true (fraud_mask fr)) 0); [eauto|].
    rewrite A. cbn [rbind]. eauto.
Qed.

(** C9.  When the dataset lacks a column that an operation refers to by
    name ([FraudResult] or [Amount] for [fraud_analysis], one of the four
    categorical columns for [categorical_distribution]), the operation ends
    with an uncaught [KeyError]: nothing checks for the column beforehand and
    nothing handles the failure.  [fraud_analysis] fails before it draws;
    [categorical_distribution] fails at the first column that is not there,
    after it has made the figure and drawn the charts of the columns before
    it. *)
Theorem missing_column_raises `{Primitives} (o : Op) (c : string) (w : World) :
  In c (referenced_columns o) ->
  lookup c (data (self w)) = None ->
  exists (k : string) (ds : list Draw),
    run o w = (Raise (KeyError k), add_canvas w ds)
    /\ (o = FraudAnalysis -> ds = [])
    /\ (o = CategoricalDistribution ->
        In k columns_of_interest /\ lookup k (data (self w)) = None
        /\ ds = Subplots 2 2
                :: loop_events grid4 (data (self w)) 0 columns_of_interest).
Proof.
  intros I L. destruct o; simpl in I; try contradiction.
  - destruct (loop_idx_missing (data (self w)) columns_of_interest 0 None
                (ex_intro _ c (conj I L))) as (k & Ik & Lk & Ek).
    exists k, (Subplots 2 2 :: loop_events grid4 (data (self w)) 0 columns_of_interest).
    split; [|split; [discriminate | auto]].
    simpl run. rewrite categorical_distribution_run. cbv zeta. now rewrite Ek.
  - destruct (fraud_bins_missing (data (self w))) as (k & Ek).
    { destruct I as [<-|[<-|[]]]; auto. }
    exists k, []. split; [|split; [reflexivity | discriminate]].
    simpl run. unfold fraud_analysis, bind at 1, self_data.
    unfold bind at 1, lift. rewrite Ek. now rewrite add_canvas_nil.
Qed.

Lemma missing_column_raises_witness :
  exists (k : string) (ds : list Draw),
    @run sample_primitives CategoricalDistribution (fresh five_frauds)
    = (Raise (KeyError k), add_canvas (fresh five_frauds) ds)
    /\ (CategoricalDistribution = FraudAnalysis -> ds = [])
    /\ (CategoricalDistribution = CategoricalDistribution ->
        In k columns_of_interest
        /\ lookup k (data (self (fresh five_frauds))) = None
        /\ ds = Subplots 2 2
                :: loop_events grid4 (data (self (fresh five_frauds))) 0
                               columns_of_interest).
Proof.
  apply (@missing_column_raises sample_primitives CategoricalDistribution
           "ProviderId" (fresh five_frauds)).
  - simpl. auto.
  - reflexivity.
Defined.

(** ** [categorical_distribution] on a frame that has the four columns *)

Lemma insert_by_size_perm x l : Permutation (x :: l) (insert_by_size x l).
Proof.
  induction l as [|y t IH]; simpl; [apply Permutation_refl|].
  destruct (Nat.leb (snd x) (snd y)); [apply Permutation_refl|].
  eapply perm_trans; [apply perm_swap | now apply perm_skip].
Qed.

Lemma sort_sizes_perm l : Permutation l (sort_sizes l).
Proof.
  induction l as [|x t IH]; simpl; [constructor|].
  eapply perm_trans; [apply perm_skip, IH | apply insert_by_size_perm].
Qed.

Lemma insert_by_size_sorted x l :
  StronglySorted le (map snd l) -> StronglySorted le (map snd (insert_by_size x l)).
Proof.
  induction l as [|y t IH]; simpl; intro S; [repeat constructor|].
  inversion S as [|? ? St Hy]; subst.
  destruct (Nat.leb (snd x) (snd y)) eqn:E; simpl.
  - apply Nat.leb_le in E. constructor; [exact S|].
    constructor; [exact E|].
    eapply Forall_impl; [|exact Hy]. intros z Hz. lia.
  - apply Nat.leb_gt in E. constructor; [now apply IH|].
    eapply Permutation_Forall; [apply Permutation_map, insert_by_size_perm|].
    simpl. constructor; [lia | exact Hy].
Qed.

(** The counts of a chart are in ascending order. *)
Lemma sort_sizes_sorted l : StronglySorted le (map snd (sort_sizes l)).
Proof.
  induction l as [|x t IH]; simpl; [constructor | now apply insert_by_size_sorted].
Qed.

Lemma cell_eqb_sym (a b : Cell) : cell_eqb a b = cell_eqb b a.
Proof.
  destruct a, b; simpl; auto using Qeq_bool_comm, String.eqb_sym.
Qed.

Lemma cell_eqb_trans (a b c : Cell) :
  cell_eqb a b = true -> cell_eqb b c = true -> cell_eqb a c = true.
Proof.
  destruct a, b, c; simpl; try discriminate.
  - apply Qeq_bool_trans.
  - rewrite !String.eqb_eq. congruence.
Qed.

Lemma cell_eqb_refl (a : Cell) : cell_eqb a a = true.
Proof. destruct a; simpl; [apply Qeq_bool_refl | apply String.eqb_refl]. Qed.

Lemma group_count_comp (k k' : Cell) (l : list Cell) :
  cell_eqb k' k = true -> group_count k' l = group_count k l.
Proof.
  intro E. unfold group_count. f_equal. apply filter_ext. intro x.
  destruct (cell_eqb k x) eqn:A.
  - eapply cell_eqb_trans; eauto.
  - destruct (cell_eqb k' x) eqn:B; [|reflexivity].
    rewrite cell_eqb_sym in E. rewrite (cell_eqb_trans _ _ _ E B) in A.
    discriminate.
Qed.

(** Every bar of a chart is annotated with the count of its own category. *)
Lemma bar_text_count (c : Column) (i : nat) (k : Cell) (n : nat) :
  nth_error (sort_sizes (groupby_size c)) i = Some (k, n) ->
  bar_text (sort_sizes (groupby_size c)) i = VInt n
  /\ n = group_count k (present_cells c).
Proof.
  intro E. set (gc := sort_sizes (groupby_size c)) in *.
  assert (G : Forall (fun p => snd p = group_count (fst p) (present_cells c)) gc).
  { eapply Permutation_Forall; [apply sort_sizes_perm|].
    unfold groupby_size. apply Forall_map, Forall_forall. reflexivity. }
  assert (Hn : n = group_count k (present_cells c)).
  { rewrite Forall_forall in G. apply (G (k, n)). eapply nth_error_In; eauto. }
  split; [|exact Hn].
  unfold bar_text. rewrite nth_error_map, E. simpl.
  assert (L : lookup_cell k gc = Some n).
  { apply nth_error_In in E. clear - G E Hn. induction gc as [|[k' n'] t IH];
      simpl in *; [contradiction|].
    inversion G as [|? ? Gk Gt]; subst. simpl in Gk.
    destruct (cell_eqb k' k) eqn:Q.
    - now rewrite Gk, (group_count_comp k k' _ Q).
    - destruct E as [E|E]; [inversion E; subst; rewrite cell_eqb_refl in Q; discriminate|].
      now apply IH. }
  now rewrite L.
Qed.

(** With the four columns in the frame the operation returns, and the axes
    it deletes at the end are those numbered from [idx + 1] on, where [idx]
    is what the annotation loop of the last chart left: the number of
    categories of [ChannelId] minus one. *)
Lemma categorical_distribution_deletes (w : World) (c1 c2 c3 c4 : Column) :
  lookup "CurrencyCode"%string (data (self w)) = Some c1 ->
  lookup "ProviderId"%string (data (self w)) = Some c2 ->
  lookup "ProductCategory"%string (data (self w)) = Some c3 ->
  lookup "ChannelId"%string (data (self w)) = Some c4 ->
  let idx := idx_after 3 (length (groupby_size c4)) in
  categorical_distribution w
  = (Ok tt,
     add_canvas w
       ((Subplots 2 2
         :: chart_events (Grid 0) "CurrencyCode" c1
         ++ chart_events (Grid 1) "ProviderId" c2
         ++ chart_events (Grid 2) "ProductCategory" c3
         ++ chart_events (Grid 3) "ChannelId" c4)
        ++ map (fun unused => Delaxes (nth unused grid4 Gca)) (range (idx + 1) 4)
        ++ [Suptitle "Distribution of Categorical Columns"; TightLayout])).
Proof.
  intros L1 L2 L3 L4 idx. rewrite categorical_distribution_run. cbv zeta.
  unfold columns_of_interest. cbn [loop_idx loop_events].
  rewrite L1, L2, L3, L4.
  rewrite <- (Permutation_length (sort_sizes_perm (groupby_size c4))).
  fold idx. cbn [nth grid4 map seq]. rewrite app_nil_r. reflexivity.
Qed.

(** C5 on a frame where [ChannelId] takes two values: the operation
    returns, and its closing loop has deleted the axes 2 and 3, the charts of
    [ProductCategory] and of [ChannelId], which it had drawn. *)
Theorem categorical_distribution_deletes_charts :
  let out := categorical_distribution (fresh two_channels) in
  fst out = Ok tt
  /\ In (Barplot (Grid 2) [(CStr "airtime", VInt 1); (CStr "data", VInt 1);
                           (CStr "tv", VInt 1)])
        (canvas (snd out))
  /\ In (Barplot (Grid 3) [(CStr "C2", VInt 1); (CStr "C3", VInt 2)])
        (canvas (snd out))
  /\ filter is_delaxes (canvas (snd out)) = [Delaxes (Grid 2); Delaxes (Grid 3)].
Proof.
  vm_compute. repeat split; auto 30.
Qed.

(** The sibling loop of [numerical_distribution] keeps the loop index: with
    three numeric columns on a 2 x 2 grid it deletes the one unused axes. *)
Example numerical_distribution_deletes_unused :
  filter is_delaxes (canvas (snd (numerical_distribution (fresh three_numeric))))
  = [Delaxes (Grid 3)].
Proof. vm_compute. reflexivity. Qed.

(* ================================================================== *)
(** * Further properties of the operations *)

(** ** The grid and the loop of [numerical_distribution] *)

Lemma ceil_sqrt_spec (n : nat) :
  (1 <= n)%nat ->
  (1 <= ceil_sqrt n /\ n <= ceil_sqrt n * ceil_sqrt n
   /\ (ceil_sqrt n - 1) * (ceil_sqrt n - 1) < n)%nat.
Proof.
  intro Hn. unfold ceil_sqrt.
  pose proof (Nat.sqrt_up_spec n ltac:(lia)) as [A B].
  assert (P : (1 <= Nat.sqrt_up n)%nat).
  { destruct (Nat.sqrt_up n) eqn:E; [simpl in B; lia | lia]. }
  replace (Nat.sqrt_up n - 1)%nat with (Nat.pred (Nat.sqrt_up n)) by lia.
  lia.
Qed.

Lemma grid_rows_spec (n : nat) :
  (1 <= n)%nat ->
  (n <= ceil_sqrt n * grid_rows n /\ ceil_sqrt n * grid_rows n < n + ceil_sqrt n)%nat.
Proof.
  intro Hn. destruct (ceil_sqrt_spec n Hn) as (C1 & _).
  unfold grid_rows. set (c := ceil_sqrt n) in *.
  pose proof (Nat.div_mod (n + c - 1) c ltac:(lia)) as D.
  pose proof (Nat.mod_upper_bound (n + c - 1) c ltac:(lia)) as M.
  lia.
Qed.

(** X2.  For [n >= 1] charts the grid of [numerical_distribution] has
    [ceil (sqrt n)] columns and [ceil (n / columns)] rows: the division is
    defined, there are never more rows than columns, every chart has a cell,
    fewer than one row of cells is left over, and the grid is a single cell
    only for a single chart. *)
Theorem numerical_grid_fits (n : nat) :
  (1 <= n)%nat ->
  let c := ceil_sqrt n in
  let r := grid_rows n in
  ceil_div n c = Ok r
  /\ (1 <= r)%nat /\ (r <= c)%nat
  /\ (n <= c * r)%nat /\ (c * r < n + c)%nat
  /\ ((c * r)%nat = 1%nat <-> n = 1%nat).
Proof.
  intros Hn c r.
  destruct (ceil_sqrt_spec n Hn) as (C1 & C2 & C3). fold c in C1, C2, C3.
  destruct (grid_rows_spec n Hn) as (G1 & G2). fold c r in G1, G2.
  assert (R1 : (1 <= r)%nat) by (destruct r; lia).
  assert (R2 : (r <= c)%nat) by nia.
  split.
  { unfold ceil_div. destruct c eqn:E; [lia|]. unfold r, grid_rows. fold c.
    now rewrite E. }
  repeat split; try assumption.
  - intro E. nia.
  - intros ->. assert (c = 1%nat) by nia. assert (r = 1%nat) by nia. nia.
Qed.

Lemma numerical_grid_fits_witness :
  let c := ceil_sqrt 5 in
  let r := grid_rows 5 in
  ceil_div 5 c = Ok r
  /\ (1 <= r)%nat /\ (r <= c)%nat
  /\ (5 <= c * r)%nat /\ (c * r < 5 + c)%nat
  /\ ((c * r)%nat = 1%nat <-> 5%nat = 1%nat).
Proof. apply (numerical_grid_fits 5). repeat constructor. Defined.

Lemma numerical_chart_run (axes : list Axes) (idx : nat) (column : string)
      (w : World) :
  numerical_chart axes idx column w
  = (Ok idx,
     add_canvas w (histogram_events (nth idx axes Gca) column (data (self w)))).
Proof.
  unfold numerical_chart, bind at 1, self_data.
  unfold bind at 1. rewrite draw_run.
  unfold bind at 1. rewrite draw_run.
  unfold bind at 1. rewrite draw_run.
  unfold bind at 1. rewrite draw_run.
  unfold bind at 1. rewrite draw_run.
  unfold bind at 1. rewrite draw_run.
  unfold bind at 1. rewrite draw_run.
  cbn [ret]. rewrite !add_canvas_app. reflexivity.
Qed.

Lemma numerical_loop (axes : list Axes) (cols : list string) :
  forall (i : nat) (prev : option nat) (w : World),
    for_enumerate i cols (numerical_chart axes) prev w
    = (Ok (match cols with
           | [] => prev
           | _ :: _ => Some (i + length cols - 1)%nat
           end),
       add_canvas w (histograms axes (data (self w)) i cols)).
Proof.
  induction cols as [|c t IH]; intros i prev w; cbn [for_enumerate histograms].
  - unfold ret. now rewrite add_canvas_nil.
  - unfold bind at 1. rewrite numerical_chart_run, IH, add_canvas_app.
    change (data (self (add_canvas w _))) with (data (self w)).
    destruct t; cbn [length]; do 3 f_equal; lia.
Qed.

(** The whole of [numerical_distribution], call by call. *)
Lemma numerical_distribution_run (w : World) :
  let d := data (self w) in
  let cols := keys (get_numeric_data d) in
  let n := length cols in
  let c := ceil_sqrt n in
  let r := grid_rows n in
  numerical_distribution w
  = match n with
    | O => (Raise ZeroDivisionError, w)
    | S O => (Raise (AttributeError "'Axes' object has no attribute 'flatten'"),
              add_canvas w [Subplots 1 1])
    | _ =>
        (Ok tt,
         add_canvas w
           (Subplots c r
            :: histograms (map Grid (seq 0 (c * r))) d 0 cols
            ++ map (fun unused => Delaxes (nth unused (map Grid (seq 0 (c * r))) Gca))
                   (range n (c * r))
            ++ [TightLayout; PltShow]))
    end.
Proof.
  intros d cols n c r.
  unfold numerical_distribution, bind at 1, self_data. fold d cols n c.
  destruct n as [|[|m]] eqn:En.
  - reflexivity.
  - reflexivity.
  - destruct (numerical_grid_fits n ltac:(lia)) as (Dv & R1 & R2 & G1 & G2 & G3).
    rewrite En in Dv, R1, R2, G1, G2, G3. fold c r in Dv, R1, R2, G1, G2, G3.
    fold (grid_rows (S (S m))) in r. 
    unfold bind at 1, lift. rewrite Dv.
    unfold bind at 1, subplots.
    assert (C1 : (1 <= c)%nat) by nia.
    replace (Nat.eqb c 0) with false by (symmetry; apply Nat.eqb_neq; lia).
    replace (Nat.eqb r 0) with false by (symmetry; apply Nat.eqb_neq; lia).
    cbn [orb]. unfold bind at 1. rewrite draw_run.
    replace (Nat.eqb (c * r) 1) with false
      by (symmetry; apply Nat.eqb_neq; intro E; apply G3 in E; discriminate).
    cbn [ret]. unfold bind at 1. rewrite numerical_loop.
    change (data (self (add_canvas w [Subplots c r]))) with d.
    destruct cols as [|c0 cols'] eqn:Ec; [discriminate|].
    cbn [local ret]. unfold bind at 1. cbn [local ret].
    unfold bind at 1. rewrite for_each_draw.
    unfold bind at 1. rewrite draw_run. rewrite draw_run.
    rewrite !add_canvas_app, length_map, length_seq.
    replace (0 + length (c0 :: cols') - 1 + 1)%nat with (S (S m))
      by (change (length (c0 :: cols')) with n; lia).
    cbn [app]. reflexivity.
Qed.

(** X1.  With no numeric column [numerical_distribution] divides by zero
    before it draws anything; with a single numeric column it makes a
    1 x 1 figure, gets one Axes object instead of an array, and fails on
    [axes.flatten()].  In both cases no chart is drawn. *)
Theorem numerical_distribution_too_few (w : World) :
  let n := length (get_numeric_data (data (self w))) in
  (n <= 1)%nat ->
  numerical_distribution w
  = if Nat.eqb n 0 then (Raise ZeroDivisionError, w)
    else (Raise (AttributeError "'Axes' object has no attribute 'flatten'"),
          add_canvas w [Subplots 1 1]).
Proof.
  intros n Hn. rewrite numerical_distribution_run. cbv zeta.
  unfold keys. rewrite length_map. fold n.
  destruct n as [|[|m]]; [reflexivity | reflexivity | lia].
Qed.

Lemma numerical_distribution_too_few_witness :
  numerical_distribution (fresh scenario_frame)
  = if Nat.eqb (length (get_numeric_data (data (self (fresh scenario_frame))))) 0
    then (Raise ZeroDivisionError, fresh scenario_frame)
    else (Raise (AttributeError "'Axes' object has no attribute 'flatten'"),
          add_canvas (fresh scenario_frame) [Subplots 1 1]).
Proof.
  apply (numerical_distribution_too_few (fresh scenario_frame)).
  apply Nat.leb_le. vm_compute. reflexivity.
Defined.

Lemma nth_grid (k u : nat) :
  (u < k)%nat -> nth u (map Grid (seq 0 k)) Gca = Grid u.
Proof.
  intro H. rewrite (nth_indep _ Gca (Grid 0)) by (rewrite length_map, length_seq; lia).
  rewrite (map_nth Grid). now rewrite seq_nth.
Qed.

Lemma filter_delaxes_all (f : nat -> Axes) (l : list nat) :
  filter is_delaxes (map (fun u => Delaxes (f u)) l)
  = map (fun u => Delaxes (f u)) l.
Proof. induction l as [|x t IH]; simpl; [reflexivity | now rewrite IH]. Qed.

Lemma histograms_no_delaxes axes d cols :
  forall i, filter is_delaxes (histograms axes d i cols) = [].
Proof.
  induction cols as [|c t IH]; intro i; simpl; [reflexivity | apply IH].
Qed.

Lemma histograms_in axes d cols :
  forall (i0 i : nat) (column : string),
    nth_error cols i = Some column ->
    incl (histogram_events (nth (i0 + i) axes Gca) column d)
         (histograms axes d i0 cols).
Proof.
  induction cols as [|c t IH]; intros i0 i column E; [destruct i; discriminate|].
  cbn [histograms]. destruct i as [|i]; simpl in E.
  - inversion E; subst. rewrite Nat.add_0_r. apply incl_appl, incl_refl.
  - apply incl_appr. replace (i0 + S i)%nat with (S i0 + i)%nat by lia.
    now apply IH.
Qed.

(** X3.  With at least two numeric columns [numerical_distribution]
    returns; every numeric column, in frame order, has its histogram on the
    axes of its own number, with the mean and the median of the column
    marked; and the axes deleted at the end are exactly those numbered from the
    number of columns on, so no drawn chart is deleted. *)
Theorem numerical_distribution_keeps_charts (w : World) :
  let d := data (self w) in
  let cols := keys (get_numeric_data d) in
  let n := length cols in
  (2 <= n)%nat ->
  exists ds : list Draw,
    numerical_distribution w = (Ok tt, add_canvas w ds)
    /\ filter is_delaxes ds
       = map (fun u => Delaxes (Grid u)) (range n (ceil_sqrt n * grid_rows n))
    /\ forall (i : nat) (column : string),
         nth_error cols i = Some column ->
         In (Histplot (Grid i) column (num_column column d) 15) ds
         /\ In (Axvline (Grid i) (fmean (num_column column d)) "Mean") ds
         /\ In (Axvline (Grid i) (fmedian (num_column column d)) "Median") ds
         /\ ~ In (Delaxes (Grid i)) ds.
Proof.
  intros d cols n Hn.
  destruct (numerical_grid_fits n ltac:(lia)) as (_ & R1 & R2 & G1 & G2 & _).
  set (c := ceil_sqrt n) in *. set (r := grid_rows n) in *.
  set (axes := map Grid (seq 0 (c * r))).
  exists (Subplots c r
          :: histograms axes d 0 cols
          ++ map (fun unused => Delaxes (nth unused axes Gca)) (range n (c * r))
          ++ [TightLayout; PltShow]).
  assert (Dl : map (fun unused => Delaxes (nth unused axes Gca)) (range n (c * r))
               = map (fun u => Delaxes (Grid u)) (range n (c * r))).
  { apply map_ext_in. intros u Hu. unfold range in Hu. apply in_seq in Hu.
    unfold axes. rewrite nth_grid by lia. reflexivity. }
  assert (F : filter is_delaxes
                (Subplots c r
                 :: histograms axes d 0 cols
                 ++ map (fun unused => Delaxes (nth unused axes Gca)) (range n (c * r))
                 ++ [TightLayout; PltShow])
              = map (fun u => Delaxes (Grid u)) (range n (c * r))).
  { cbn [filter is_delaxes]. rewrite !filter_app, histograms_no_delaxes, Dl.
    cbn [app filter is_delaxes]. rewrite app_nil_r.
    apply filter_delaxes_all. }
  split.
  { rewrite numerical_distribution_run. cbv zeta. fold d cols n c r.
    destruct n as [|[|m]]; [lia | lia | reflexivity]. }
  split; [exact F|].
  intros i column E.
  assert (Hi : (i < n)%nat) by (apply nth_error_Some; unfold n; congruence).
  pose proof (histograms_in axes d cols 0 i column E) as I.
  cbn [Nat.add] in I. unfold axes in I at 1. rewrite nth_grid in I by lia.
  assert (J : forall e, In e (histogram_events (Grid i) column d) ->
              In e (Subplots c r
                    :: histograms axes d 0 cols
                    ++ map (fun unused => Delaxes (nth unused axes Gca)) (range n (c * r))
                    ++ [TightLayout; PltShow])).
  { intros e He. right. apply in_or_app. left. now apply I. }
  split; [apply J; simpl; auto|].
  split; [apply J; simpl; auto 10|].
  split; [apply J; simpl; auto 10|].
  intro D. assert (D' : In (Delaxes (Grid i))
                          (map (fun u => Delaxes (Grid u)) (range n (c * r)))).
  { rewrite <- F. apply filter_In. split; [exact D | reflexivity]. }
  apply in_map_iff in D'. destruct D' as (u & Eu & Hu). inversion Eu; subst u.
  unfold range in Hu. apply in_seq in Hu. lia.
Qed.

Lemma numerical_distribution_keeps_charts_witness :
  exists ds : list Draw,
    numerical_distribution (fresh three_numeric)
    = (Ok tt, add_canvas (fresh three_numeric) ds)
    /\ filter is_delaxes ds
       = map (fun u => Delaxes (Grid u))
             (range (length (keys (get_numeric_data (data (self (fresh three_numeric))))))
                    (ceil_sqrt (length (keys (get_numeric_data
                                                (data (self (fresh three_numeric))))))
                     * grid_rows (length (keys (get_numeric_data
                                                  (data (self (fresh three_numeric))))))))
    /\ forall (i : nat) (column : string),
         nth_error (keys (get_numeric_data (data (self (fresh three_numeric))))) i
         = Some column ->
         In (Histplot (Grid i) column
               (num_column column (data (self (fresh three_numeric)))) 15) ds
         /\ In (Axvline (Grid i)
                  (fmean (num_column column (data (self (fresh three_numeric)))))
                  "Mean") ds
         /\ In (Axvline (Grid i)
                  (fmedian (num_column column (data (self (fresh three_numeric)))))
                  "Median") ds
         /\ ~ In (Delaxes (Grid i)) ds.
Proof.
  apply (numerical_distribution_keeps_charts (fresh three_numeric)).
  apply Nat.leb_le. vm_compute. reflexivity.
Defined.

(** ** The groups of a column *)

Lemma insert_key_perm x l : Permutation (x :: l) (insert_key x l).
Proof.
  induction l as [|y t IH]; simpl; [apply Permutation_refl|].
  destruct (cell_leb x y); [apply Permutation_refl|].
  eapply perm_trans; [apply perm_swap | now apply perm_skip].
Qed.

Lemma sorted_keys_perm l : Permutation l (fold_right insert_key [] l).
Proof.
  induction l as [|x t IH]; simpl; [constructor|].
  eapply perm_trans; [apply perm_skip, IH | apply insert_key_perm].
Qed.

Lemma uniq_incl (l : list Cell) (k : Cell) : In k (uniq l) -> In k l.
Proof.
  revert k. induction l as [|x t IH]; simpl; intros k; [tauto|].
  intros [E|I]; [now left|]. right. apply IH. apply filter_In in I. tauto.
Qed.

Lemma filter_filter_weak {A} (f g : A -> bool) (l : list A) :
  (forall x, f x = true -> g x = true) -> filter f (filter g l) = filter f l.
Proof.
  intro H. induction l as [|x t IH]; simpl; [reflexivity|].
  destruct (g x) eqn:G; simpl.
  - destruct (f x); congruence.
  - destruct (f x) eqn:F; [|exact IH]. rewrite (H x F) in G. discriminate.
Qed.

(** Every present value is equal to exactly one of the distinct keys. *)
Lemma uniq_one_key (l : list Cell) (x : Cell) :
  In x l -> length (filter (fun k => cell_eqb k x) (uniq l)) = 1%nat.
Proof.
  induction l as [|a t IH]; intro I; [contradiction|].
  cbn [uniq filter]. destruct (cell_eqb a x) eqn:E.
  - cbn [length]. f_equal. apply length_zero_iff_nil, filter_none.
    intros k Hk. apply filter_In in Hk. destruct Hk as [_ Nk].
    apply negb_true_iff in Nk.
    destruct (cell_eqb k x) eqn:K; [|reflexivity].
    rewrite cell_eqb_sym in K. rewrite (cell_eqb_trans a x k E K) in Nk.
    discriminate.
  - destruct I as [->|I]; [rewrite cell_eqb_refl in E; discriminate|].
    rewrite filter_filter_weak; [now apply IH|].
    intros k K. apply negb_true_iff.
    destruct (cell_eqb a k) eqn:A; [|reflexivity].
    rewrite (cell_eqb_trans a k x A K) in E. discriminate.
Qed.

Lemma total_sizes_perm (l l' : list (Cell * nat)) :
  Permutation l l' -> total_sizes l = total_sizes l'.
Proof. induction 1; simpl; lia. Qed.

Lemma total_sizes_cons (p : Cell * nat) (l : list (Cell * nat)) :
  total_sizes (p :: l) = (snd p + total_sizes l)%nat.
Proof. reflexivity. Qed.

Lemma group_count_cons (k x : Cell) (l : list Cell) :
  group_count k (x :: l)
  = ((if cell_eqb k x then 1 else 0) + group_count k l)%nat.
Proof. unfold group_count. simpl. destruct (cell_eqb k x); reflexivity. Qed.

Lemma total_group_counts (ks : list Cell) (l : list Cell) :
  (forall x, In x l -> length (filter (fun k => cell_eqb k x) ks) = 1%nat) ->
  total_sizes (map (fun k => (k, group_count k l)) ks) = length l.
Proof.
  induction l as [|x t IH]; intro H.
  - clear H. induction ks as [|k ks IHk]; [reflexivity|].
    cbn [map]. rewrite total_sizes_cons, IHk. reflexivity.
  - assert (S1 : total_sizes (map (fun k => (k, group_count k (x :: t))) ks)
                 = (length (filter (fun k => cell_eqb k x) ks)
                    + total_sizes (map (fun k => (k, group_count k t)) ks))%nat).
    { clear. induction ks as [|k ks IHk]; [reflexivity|].
      cbn [map filter]. rewrite !total_sizes_cons, IHk. cbn [snd].
      rewrite group_count_cons. destruct (cell_eqb k x); cbn [length]; lia. }
    rewrite S1, (H x (or_introl eq_refl)), IH; [reflexivity|].
    intros y Hy. apply H. now right.
Qed.

Lemma present_cells_count (c : Column) :
  (length (present_cells c) + missing_count c = col_len c)%nat.
Proof.
  destruct c as [v|v]; simpl.
  - rewrite length_map. induction v as [|[x|] t IH]; simpl; lia.
  - induction v as [|[x|] t IH]; simpl; lia.
Qed.

(** X5.  The bars of the chart of a column partition its present rows: the
    counts add up to the number of rows of the column that are not missing,
    every bar stands for at least one row and carries the number of rows equal
    to its category, and every present value belongs to exactly one bar. *)
Theorem groupby_size_partition (c : Column) :
  let gc := sort_sizes (groupby_size c) in
  (total_sizes gc + missing_count c = col_len c)%nat
  /\ Forall (fun p => (1 <= snd p)%nat
                      /\ snd p = group_count (fst p) (present_cells c)) gc
  /\ Forall (fun x => length (filter (fun p => cell_eqb (fst p) x) gc) = 1%nat)
            (present_cells c).
Proof.
  intro gc. set (cells := present_cells c).
  assert (P : Permutation (groupby_size c) gc) by apply sort_sizes_perm.
  assert (K : Permutation (uniq cells) (fold_right insert_key [] (uniq cells)))
    by apply sorted_keys_perm.
  assert (One : forall x, In x cells ->
            length (filter (fun k => cell_eqb k x)
                           (fold_right insert_key [] (uniq cells))) = 1%nat).
  { intros x Hx. rewrite <- (filter_length_perm _ _ _ K). now apply uniq_one_key. }
  split; [|split].
  - rewrite <- (total_sizes_perm _ _ P). unfold groupby_size. fold cells.
    rewrite (total_group_counts _ cells One). apply present_cells_count.
  - eapply Permutation_Forall; [exact P|].
    unfold groupby_size. fold cells. apply Forall_map, Forall_forall.
    intros k Hk. cbn [fst snd]. split; [|reflexivity].
    apply (Permutation_in _ (Permutation_sym K)) in Hk. apply uniq_incl in Hk.
    unfold group_count. clear - Hk. induction cells as [|y t IH]; [contradiction|].
    simpl. destruct Hk as [->|Hk].
    + rewrite cell_eqb_refl. simpl. lia.
    + specialize (IH Hk). destruct (cell_eqb k y); simpl; lia.
  - apply Forall_forall. intros x Hx.
    rewrite <- (filter_length_perm _ _ _ P). unfold groupby_size. fold cells.
    rewrite <- (One x Hx).
    generalize (fold_right insert_key [] (uniq cells)). intro ks.
    induction ks as [|k ks IH]; simpl; [reflexivity|].
    destruct (cell_eqb k x); simpl; congruence.
Qed.

(** X6.  In every chart of [categorical_distribution] the counts are in
    ascending order from left to right and the text written on each bar is the
    count of that bar. *)
Theorem categorical_chart_bars (c : Column) :
  let gc := sort_sizes (groupby_size c) in
  StronglySorted le (map snd gc)
  /\ map (bar_text gc) (seq 0 (length gc)) = map (fun p => VInt (snd p)) gc.
Proof.
  intro gc. split; [apply sort_sizes_sorted|].
  apply nth_ext with (d := VMissing) (d' := VMissing);
    [now rewrite !length_map, length_seq|].
  intros i Hi. rewrite length_map, length_seq in Hi.
  rewrite (nth_indep _ VMissing (bar_text gc 0)) by (rewrite length_map, length_seq; lia).
  rewrite (map_nth (bar_text gc)), seq_nth by lia. cbn [Nat.add].
  destruct (nth_error gc i) as [[k n]|] eqn:E;
    [|apply nth_error_None in E; lia].
  destruct (bar_text_count c i k n E) as [T _]. fold gc in T. rewrite T.
  rewrite (nth_indep _ VMissing (VInt 0)) by (rewrite length_map; lia).
  change (VInt 0) with ((fun p : Cell * nat => VInt (snd p)) (CStr EmptyString, 0%nat)).
  rewrite map_nth.
  now rewrite (nth_error_nth gc i (CStr EmptyString, 0%nat) E).
Qed.

(** ** The axes that [categorical_distribution] deletes *)

Lemma chart_events_no_delaxes ax column c :
  filter is_delaxes (chart_events ax column c) = [].
Proof.
  unfold chart_events. rewrite filter_app. cbn [filter is_delaxes app].
  apply filter_none. intros e He. apply in_map_iff in He.
  destruct He as (i & <- & _). reflexivity.
Qed.

(** X4.  On a frame with the four categorical columns
    [categorical_distribution] returns, and the axes it deletes at the end are
    those numbered from the number of categories of [ChannelId] up to 3 (from 4
    on, that is none, when [ChannelId] has no present value).  So all four
    charts stay exactly when [ChannelId] has at least four categories or none,
    and with one to three categories the chart of [ChannelId] itself is
    deleted. *)
Theorem categorical_distribution_deleted_axes (w : World) (c1 c2 c3 c4 : Column) :
  lookup "CurrencyCode"%string (data (self w)) = Some c1 ->
  lookup "ProviderId"%string (data (self w)) = Some c2 ->
  lookup "ProductCategory"%string (data (self w)) = Some c3 ->
  lookup "ChannelId"%string (data (self w)) = Some c4 ->
  let k := length (groupby_size c4) in
  exists ds : list Draw,
    categorical_distribution w = (Ok tt, add_canvas w ds)
    /\ filter is_delaxes ds
       = map (fun u => Delaxes (Grid u)) (range (idx_after 3 k + 1) 4)
    /\ (filter is_delaxes ds = [] <-> k = 0%nat \/ (4 <= k)%nat)
    /\ ((1 <= k <= 3)%nat -> In (Delaxes (Grid 3)) ds).
Proof.
  intros L1 L2 L3 L4 k.
  rewrite (categorical_distribution_deletes w c1 c2 c3 c4 L1 L2 L3 L4).
  cbv zeta. fold k. eexists. split; [reflexivity|].
  assert (F : filter is_delaxes
                ((Subplots 2 2
                  :: chart_events (Grid 0) "CurrencyCode" c1
                  ++ chart_events (Grid 1) "ProviderId" c2
                  ++ chart_events (Grid 2) "ProductCategory" c3
                  ++ chart_events (Grid 3) "ChannelId" c4)
                 ++ map (fun unused => Delaxes (nth unused grid4 Gca))
                        (range (idx_after 3 k + 1) 4)
                 ++ [Suptitle "Distribution of Categorical Columns"; TightLayout])
              = map (fun u => Delaxes (Grid u)) (range (idx_after 3 k + 1) 4)).
  { rewrite filter_app. cbn [filter is_delaxes].
    rewrite !filter_app, !chart_events_no_delaxes. cbn [app filter is_delaxes].
    rewrite app_nil_r, filter_delaxes_all.
    apply map_ext_in. intros u Hu. unfold range in Hu. apply in_seq in Hu.
    unfold grid4. rewrite nth_grid by lia. reflexivity. }
  split; [exact F|]. split.
  - rewrite F.
    assert (R : map (fun u => Delaxes (Grid u)) (range (idx_after 3 k + 1) 4) = []
                <-> (4 <= idx_after 3 k + 1)%nat).
    { unfold range. destruct (4 - (idx_after 3 k + 1))%nat eqn:E; simpl.
      - split; [lia | reflexivity].
      - split; [discriminate | lia]. }
    rewrite R. destruct k; cbn [idx_after]; lia.
  - intro Hk. apply (proj1 (filter_In is_delaxes _ _)).
    rewrite F. apply in_map_iff. exists 3%nat. split; [reflexivity|].
    unfold range. apply in_seq. destruct k; cbn [idx_after]; lia.
Qed.

Lemma categorical_distribution_deleted_axes_witness :
  exists ds : list Draw,
    categorical_distribution (fresh two_channels)
    = (Ok tt, add_canvas (fresh two_channels) ds)
    /\ filter is_delaxes ds
       = map (fun u => Delaxes (Grid u))
             (range (idx_after 3 (length (groupby_size
                       (ObjCol [Some "C3"; Some "C2"; Some "C3"]%string))) + 1) 4)
    /\ (filter is_delaxes ds = []
        <-> length (groupby_size (ObjCol [Some "C3"; Some "C2"; Some "C3"]%string))
            = 0%nat
            \/ (4 <= length (groupby_size
                       (ObjCol [Some "C3"; Some "C2"; Some "C3"]%string)))%nat)
    /\ ((1 <= length (groupby_size (ObjCol [Some "C3"; Some "C2"; Some "C3"]%string))
         <= 3)%nat -> In (Delaxes (Grid 3)) ds).
Proof.
  apply (categorical_distribution_deleted_axes (fresh two_channels)
           (ObjCol [Some "UGX"; Some "UGX"; Some "UGX"]%string)
           (ObjCol [Some "P1"; Some "P2"; Some "P1"]%string)
           (ObjCol [Some "airtime"; Some "data"; Some "tv"]%string)
           (ObjCol [Some "C3"; Some "C2"; Some "C3"]%string)); reflexivity.
Defined.

(** ** The percentages of [missing_values] *)

Lemma count_true_le (m : list bool) : (count_true m <= length m)%nat.
Proof. unfold count_true. apply filter_length_le. Qed.

(** X7.  Every value in the report of [missing_values] is a percentage
    strictly above 0 and at most 100; no NaN is ever listed. *)
Theorem missing_report_range (df : DataFrame) :
  Forall (fun p => exists q : Q, snd p = Some q /\ 0 < q /\ q <= 100)
         (missing_report df).
Proof.
  apply Forall_forall. intros [name x] I. unfold missing_report in I.
  apply filter_In in I. destruct I as [I P]. apply in_map_iff in I.
  destruct I as [[k c] [E _]]. simpl in E. inversion E; subst name x. clear E.
  cbn [snd] in *.
  destruct (col_isna c) as [|b m] eqn:M; [discriminate|].
  cbn [bool_mean fmul flift2] in *.
  eexists. split; [reflexivity|].
  unfold fgt, flt in P. apply Qltb_lt in P. split; [exact P|].
  pose proof (count_true_le (b :: m)) as L.
  set (a := count_true (b :: m)) in *. set (n := length (b :: m)) in *.
  assert (N : (0 < n)%nat) by (unfold n; simpl; lia).
  assert (Qn : 0 < inject_Z (Z.of_nat n)).
  { change 0 with (inject_Z 0). rewrite <- Zlt_Qlt. lia. }
  assert (Qa : inject_Z (Z.of_nat a) <= inject_Z (Z.of_nat n)).
  { rewrite <- Zle_Qle. lia. }
  assert (D : inject_Z (Z.of_nat a) / inject_Z (Z.of_nat n) <= 1).
  { apply Qle_shift_div_r; [exact Qn | lra]. }
  lra.
Qed.

(** ** The table and the cut-offs of [count_outliers] *)

Lemma insert_by_count_sorted x l :
  StronglySorted le (map snd l) -> StronglySorted le (map snd (insert_by_count x l)).
Proof.
  induction l as [|y t IH]; simpl; intro S; [repeat constructor|].
  inversion S as [|? ? St Hy]; subst.
  destruct (Nat.leb (snd x) (snd y)) eqn:E; simpl.
  - apply Nat.leb_le in E. constructor; [exact S|].
    constructor; [exact E|].
    eapply Forall_impl; [|exact Hy]. intros z Hz. lia.
  - apply Nat.leb_gt in E. constructor; [now apply IH|].
    eapply Permutation_Forall; [apply Permutation_map, insert_by_count_perm|].
    simpl. constructor; [lia | exact Hy].
Qed.

Lemma sort_by_count_sorted l : StronglySorted le (map snd (sort_by_count l)).
Proof.
  induction l as [|x t IH]; simpl; [constructor | now apply insert_by_count_sorted].
Qed.

(** X8.  On a frame with distinct column names the table that
    [count_outliers] plots has one row per numeric column and its rows are in
    ascending order of the count. *)
Theorem outlier_table_sorted (df : DataFrame) :
  NoDup (keys df) ->
  let r := outlier_report df in
  Permutation (keys (or_table r)) (keys (get_numeric_data df))
  /\ StronglySorted le (map snd (or_table r))
  /\ length (or_texts r) = length (get_numeric_data df).
Proof.
  intros N r. destruct (outlier_report_shape df N) as (_ & _ & T). fold r in T.
  split; [|split].
  - rewrite T. unfold keys. eapply perm_trans;
      [apply Permutation_map, Permutation_sym, sort_by_count_perm|].
    rewrite map_map. apply Permutation_refl.
  - rewrite T. apply sort_by_count_sorted.
  - unfold r at 1. rewrite (outlier_texts df N). fold r. rewrite length_map, T.
    rewrite <- (Permutation_length (sort_by_count_perm _)). apply length_map.
Qed.

Lemma outlier_table_sorted_witness :
  let r := outlier_report demo_frame in
  Permutation (keys (or_table r)) (keys (get_numeric_data demo_frame))
  /\ StronglySorted le (map snd (or_table r))
  /\ length (or_texts r) = length (get_numeric_data demo_frame).
Proof. apply (outlier_table_sorted demo_frame). exact demo_frame_nodup. Defined.



Lemma constant_quantile (p : Q) (v : list f64) (c : Q) :
  0 <= p -> p <= 1 -> dropna v <> [] ->
  (forall x, In (Some x) v -> x == c) ->
  exists q : Q, quantile p v = Some q /\ q == c.
Proof.
  intros P0 P1 Ne H. unfold quantile. set (s := sort (dropna v)).
  assert (Ns : s <> []).
  { intro E. apply Ne. apply length_zero_iff_nil.
    rewrite <- (sort_length (dropna v)). fold s. now rewrite E. }
  assert (Hs : forall x, In x s -> x == c).
  { intros x Hx. apply H, in_dropna.
    apply (Permutation_in _ (Permutation_sym (sort_perm _))). exact Hx. }
  destruct (interpolate_value p s P0 P1 Ns) as (E & Hk & A & B).
  eexists. split; [exact E|].
  assert (Ls : (0 < length s)%nat) by (destruct s; [congruence | simpl; lia]).
  rewrite (Hs (nth _ s 0)) by (apply nth_In; lia).
  rewrite (Hs (nth (Nat.min _ _) s 0)) by (apply nth_In; lia).
  ring.
Qed.

(** X10.  A numeric column whose present values are all equal (a constant
    column, a column with a single present value, a column with none) is
    reported with 0 outliers. *)
Theorem constant_column_no_outliers (df : DataFrame) (name : string) (v : list f64) :
  NoDup (keys df) -> In (name, NumCol v) df ->
  (forall x y : Q, In (Some x) v -> In (Some y) v -> x == y) ->
  In (name, 0%nat) (or_table (outlier_report df)).
Proof.
  intros N I H. apply (outlier_table_entry df name v 0 N I).
  symmetry. unfold outlier_count. apply length_zero_iff_nil, filter_none.
  intros [x|] Hx; [|unfold fgt; now rewrite flt_nan_r].
  assert (Ne : dropna v <> []).
  { intro E. apply in_dropna in Hx. rewrite E in Hx. contradiction. }
  destruct (constant_quantile (1 # 4) v x ltac:(lra) ltac:(lra) Ne
              (fun y Hy => H y x Hy Hx)) as (q1 & E1 & C1).
  destruct (constant_quantile (3 # 4) v x ltac:(lra) ltac:(lra) Ne
              (fun y Hy => H y x Hy Hx)) as (q3 & E3 & C3).
  unfold lower_cut, upper_cut. rewrite E1, E3. cbn [fmul fsub fadd flift2].
  apply orb_false_iff. unfold fgt, flt. split; apply Qltb_ge; rewrite C1, C3; lra.
Qed.

Lemma constant_column_no_outliers_witness :
  In ("k"%string, 0%nat)
     (or_table (outlier_report [("k"%string, NumCol [Some 7; None; Some 7; Some 7])])).
Proof.
  apply (constant_column_no_outliers
           [("k"%string, NumCol [Some 7; None; Some 7; Some 7])] "k"
           [Some 7; None; Some 7; Some 7]).
  - repeat constructor. simpl. tauto.
  - left. reflexivity.
  - intros x y Hx Hy. simpl in Hx, Hy.
    repeat (destruct Hx as [Hx|Hx]; [try discriminate; inversion Hx; subst x|]);
      try contradiction;
      repeat (destruct Hy as [Hy|Hy]; [try discriminate; inversion Hy; subst y|]);
      try contradiction; reflexivity.
Defined.

(** ** The ways [fraud_analysis] can end *)

Lemma quantile_absent (p : Q) (v : list f64) : dropna v = [] -> quantile p v = NaN.
Proof. intro E. unfold quantile. rewrite E. reflexivity. Qed.

Lemma quantile_present (p : Q) (v : list f64) :
  dropna v <> [] -> exists q : Q, quantile p v = Some q.
Proof.
  intro Ne. unfold quantile.
  destruct (sort (dropna v)) as [|x0 s] eqn:E.
  - exfalso. apply Ne, length_zero_iff_nil.
    rewrite <- (sort_length (dropna v)), E. reflexivity.
  - unfold interpolate. eauto.
Qed.

Lemma edges_present (x : list f64) :
  dropna x <> [] ->
  Forall (fun e => exists q : Q, e = Some q) (unique (decile_edges x)).
Proof.
  intro Ne. apply Forall_forall. intros e He. apply unique_incl in He.
  unfold decile_edges in He. apply in_map_iff in He. destruct He as (p & <- & _).
  now apply quantile_present.
Qed.

Lemma edges_absent (x : list f64) :
  dropna x = [] -> unique (decile_edges x) = [NaN].
Proof.
  intro E. unfold decile_edges.
  rewrite (map_ext _ (fun _ => NaN) (fun p => quantile_absent p x E)).
  reflexivity.
Qed.

Lemma rmap_total {A B} (f : A -> result B) (l : list A) :
  Forall (fun a => exists b, f a = Ok b) l -> exists bs, rmap f l = Ok bs.
Proof.
  induction 1 as [|a t (b & Eb) Ft (bs & Ebs)]; simpl; [eauto|].
  rewrite Eb, Ebs. simpl. eauto.
Qed.

(** The labels can always be formed: no edge that is paired is NaN. *)
Lemma labels_total (x : list f64) :
  exists labels : list BinLabel,
    rmap make_label (edge_pairs (unique (decile_edges x))) = Ok labels.
Proof.
  destruct (dropna x) as [|q0 qs] eqn:E.
  - rewrite (edges_absent x E). exists []. reflexivity.
  - assert (Ne : dropna x <> []) by (rewrite E; discriminate).
    apply rmap_total, Forall_forall. intros [a c] I.
    pose proof (edges_present x Ne) as F. rewrite Forall_forall in F.
    unfold edge_pairs in I.
    destruct (F a (in_combine_l _ _ _ _ I)) as (qa & ->).
    assert (Ic : In c (unique (decile_edges x))).
    { apply in_combine_r in I. destruct (unique (decile_edges x)); [contradiction|].
      now right. }
    destruct (F c Ic) as (qc & ->). eexists. reflexivity.
Qed.

(** X11.  [fraud_analysis] builds its bins, or ends in one of five ways:
    [KeyError] for a missing [FraudResult] column, [KeyError] for the group 1
    when no row has [FraudResult == 1], [KeyError] for a missing [Amount]
    column, [TypeError] for an [Amount] column of strings, [ValueError] when
    two bins get the same label.  With a fraudulent row and a numeric
    [Amount] only the last can happen: no edge that reaches [int()] is NaN and
    the labels are as many as the categories. *)
Theorem fraud_analysis_outcome (df : DataFrame) :
  match fraud_bins df with
  | Ok b =>
      exists (fr : Column) (v : list f64),
        lookup "FraudResult"%string df = Some fr
        /\ count_true (fraud_mask fr) <> 0%nat
        /\ lookup "Amount"%string df = Some (NumCol v)
        /\ has_dup (map label_text (fb_labels b)) = false
  | Raise e =>
      (e = KeyError "FraudResult" /\ lookup "FraudResult"%string df = None)
      \/ (exists fr : Column,
            lookup "FraudResult"%string df = Some fr
            /\ ((e = KeyError "1" /\ count_true (fraud_mask fr) = 0%nat)
                \/ (count_true (fraud_mask fr) <> 0%nat
                    /\ ((e = KeyError "Amount"
                         /\ lookup "Amount"%string df = None)
                        \/ (exists o, e = TypeError "unsupported operand type(s) for -: 'str' and 'str'"
                                      /\ lookup "Amount"%string df = Some (ObjCol o))
                        \/ (exists v labels,
                              e = ValueError "Categorical categories must be unique"
                              /\ lookup "Amount"%string df = Some (NumCol v)
                              /\ rmap make_label
                                   (edge_pairs
                                      (unique (decile_edges
                                         (sort_cells (take_rows (fraud_mask fr) v)))))
                                 = Ok labels
                              /\ has_dup (map label_text labels) = true)))))
  end.
Proof.
  unfold fraud_bins, get_column.
  destruct (lookup "FraudResult"%string df) as [fr|] eqn:F; cbn [rbind];
    [|left; auto].
  destruct (Nat.eqb (count_true (fraud_mask fr)) 0) eqn:Z.
  { apply Nat.eqb_eq in Z. right. exists fr. auto. }
  apply Nat.eqb_neq in Z.
  destruct (lookup "Amount"%string df) as [[v|o]|] eqn:A; cbn [rbind].
  - rewrite qcut_10.
    set (x := sort_cells (take_rows (fraud_mask fr) v)).
    destruct (labels_total x) as (labels & R). rewrite R. cbn [rbind].
    unfold rename_categories.
    assert (Ln : length (map label_text labels)
                 = (length (unique (decile_edges x)) - 1)%nat).
    { rewrite length_map, <- (Forall2_length (rmap_ok _ _ _ R)).
      apply edge_pairs_length. }
    rewrite Ln, Nat.eqb_refl. cbn [negb].
    destruct (has_dup (map label_text labels)) eqn:D; cbn [rbind].
    + right. exists fr. split; [reflexivity|]. right. split; [exact Z|].
      right. right. exists v, labels. auto.
    + exists fr, v. cbn [fb_labels]. auto.
  - right. exists fr. split; [reflexivity|]. right. split; [exact Z|].
    right. left. exists o. auto.
  - right. exists fr. split; [reflexivity|]. right. split; [exact Z|]. left. auto.
Qed.

(** ** The bins are right-closed *)

Lemma below_down (q : Q) (a b : f64) :
  fle a b -> flt b (Some q) = true -> flt a (Some q) = true.
Proof.
  destruct a as [x|], b as [y|]; simpl; try discriminate; try tauto.
  intros L T. apply Qltb_lt. apply Qltb_lt in T. lra.
Qed.

Lemma has_dup_nodup (l : list string) : has_dup l = false -> NoDup l.
Proof.
  induction l as [|x t IH]; simpl; intro H; [constructor|].
  apply orb_false_iff in H. destruct H as [E D]. constructor; [|now apply IH].
  intro I. assert (T : existsb (String.eqb x) t = true).
  { apply existsb_exists. exists x. split; [exact I | apply String.eqb_refl]. }
  congruence.
Qed.

Lemma value_counts_keys (cats : list string) (codes : list (option nat)) :
  keys (value_counts cats codes) = cats.
Proof.
  unfold value_counts, keys. rewrite map_map. cbn [fst].
  assert (G : forall a, map (fun x : nat * string => snd x)
                            (combine (seq a (length cats)) cats) = cats).
  { induction cats as [|c t IH]; intro a; simpl; [reflexivity|]. now rewrite IH. }
  apply G.
Qed.

(** X12.  When [fraud_analysis] builds its bins, a fraud amount that falls
    into bin [j] lies in the interval closed on the right between the edges
    [j] and [j+1]: it is at most the upper edge and strictly above the lower
    one, except that the lowest edge itself belongs to the first bin. *)
Theorem fraud_bins_right_closed (df : DataFrame) (b : FraudBins) (q : Q) (j : nat) :
  fraud_bins df = Ok b ->
  In (Some q) (fb_fraud b) ->
  bin_code (fb_edges b) (Some q) = Some j ->
  exists lo hi : Q,
    nth_error (fb_edges b) j = Some (Some lo)
    /\ nth_error (fb_edges b) (S j) = Some (Some hi)
    /\ q <= hi
    /\ (lo < q \/ (j = 0%nat /\ q == lo)).
Proof.
  intros E Hq C.
  destruct (fraud_bins_ok df b E) as (fr & v & _ & _ & _ & _ & Ed & _).
  assert (Ne : dropna (fb_fraud b) <> []).
  { intro En. apply in_dropna in Hq. rewrite En in Hq. contradiction. }
  pose proof (edges_present (fb_fraud b) Ne) as Pr. rewrite <- Ed in Pr.
  pose proof (qcut_edges_strict (fb_fraud b)) as St. rewrite <- Ed in St.
  clear Ed. set (edges := fb_edges b) in *. clearbody edges.
  assert (Nth : forall k, (k < length edges)%nat ->
            exists e, nth_error edges k = Some (Some e) /\ nth k edges NaN = Some e).
  { intros k Hk. destruct (nth_error edges k) as [e|] eqn:Ek;
      [|apply nth_error_None in Ek; lia].
    rewrite Forall_forall in Pr. destruct (Pr e (nth_error_In _ _ Ek)) as (y & ->).
    exists y. split; [reflexivity|]. now apply nth_error_nth. }
  assert (Up : forall i k a c, (i < k)%nat -> (k < length edges)%nat ->
            nth i edges NaN = Some a -> nth k edges NaN = Some c -> a < c).
  { intros i k a c Hik Hk Ea Ec.
    assert (G : forall l, StronglySorted strictly_below l ->
              forall i k, (i < k)%nat -> (k < length l)%nat ->
              strictly_below (nth i l NaN) (nth k l NaN)).
    { induction 1 as [|x t Stt IH Hx]; intros i0 k0 H1 H2; simpl in *; [lia|].
      destruct k0 as [|k0]; [lia|]. destruct i0 as [|i0].
      - rewrite Forall_forall in Hx. apply Hx, nth_In. lia.
      - apply IH; lia. }
    specialize (G edges St i k Hik Hk). rewrite Ea, Ec in G.
    destruct G as [L N]. simpl in L, N. apply Qeq_bool_neq in N.
    apply Qle_lteq in L. destruct L as [L|L]; [exact L | contradiction]. }
  unfold bin_code in C. cbn [isna orb] in C.
  set (ids0 := searchsorted_left edges (Some q)) in *.
  destruct (feq_ieee (Some q) (hd NaN edges)) eqn:Fq.
  - destruct (Nat.eqb 1 (length edges)) eqn:L1; [discriminate|].
    cbn [orb Nat.eqb] in C. inversion C; subst j. clear C.
    apply Nat.eqb_neq in L1.
    assert (Le : (2 <= length edges)%nat).
    { destruct edges as [|e0 [|e1 r]]; simpl in *; try discriminate; lia. }
    destruct (Nth 0%nat ltac:(lia)) as (lo & N0 & V0).
    destruct (Nth 1%nat ltac:(lia)) as (hi & N1 & V1).
    exists lo, hi. split; [exact N0|]. split; [exact N1|].
    assert (Hd : hd NaN edges = Some lo).
    { destruct edges; simpl in *; [discriminate | congruence]. }
    rewrite Hd in Fq. simpl in Fq. apply Qeq_bool_eq in Fq.
    pose proof (Up 0%nat 1%nat lo hi ltac:(lia) ltac:(lia) V0 V1).
    split; [lra | right; auto].
  - destruct (Nat.eqb ids0 (length edges)) eqn:L1; [discriminate|].
    destruct (Nat.eqb ids0 0) eqn:L0; [discriminate|].
    cbn [orb] in C. inversion C; subst j. clear C.
    apply Nat.eqb_neq in L1, L0.
    assert (Li : (ids0 <= length edges)%nat)
      by (unfold ids0, searchsorted_left; apply filter_length_le).
    pose proof (nth_sorted_down f64 fle (fun e => flt e (Some q)) edges
                  (below_down q) (strict_is_ascending _ St)) as Rk.
    destruct (Nth (ids0 - 1)%nat ltac:(lia)) as (lo & N0 & V0).
    destruct (Nth ids0 ltac:(lia)) as (hi & N1 & V1).
    exists lo, hi. split; [exact N0|].
    split; [replace (S (ids0 - 1)) with ids0 by lia; exact N1|].
    split.
    + apply Qltb_ge. destruct (Qltb hi q) eqn:T; [|reflexivity]. exfalso.
      assert (T' : flt (nth ids0 edges NaN) (Some q) = true) by (rewrite V1; exact T).
      apply (Rk ids0 NaN ltac:(lia)) in T'.
      unfold ids0, searchsorted_left in T'. lia.
    + left. apply Qltb_lt.
      assert (T' : flt (nth (ids0 - 1) edges NaN) (Some q) = true).
      { apply (Rk (ids0 - 1)%nat NaN ltac:(lia)).
        unfold ids0, searchsorted_left. fold (searchsorted_left edges (Some q)).
        fold ids0. lia. }
      rewrite V0 in T'. exact T'.
Qed.

Lemma fraud_bins_right_closed_witness :
  fraud_bins five_frauds = Ok five_frauds_bins
  /\ In (Some 40) (fb_fraud five_frauds_bins)
  /\ bin_code (fb_edges five_frauds_bins) (Some 40) = Some 7%nat
  /\ exists lo hi : Q,
       nth_error (fb_edges five_frauds_bins) 7 = Some (Some lo)
       /\ nth_error (fb_edges five_frauds_bins) 8 = Some (Some hi)
       /\ 40 <= hi
       /\ (lo < 40 \/ (7%nat = 0%nat /\ 40 == lo)).
Proof.
  assert (E : fraud_bins five_frauds = Ok five_frauds_bins)
    by (vm_compute; reflexivity).
  assert (I : In (Some 40) (fb_fraud five_frauds_bins))
    by (vm_compute; auto 10).
  assert (C : bin_code (fb_edges five_frauds_bins) (Some 40) = Some 7%nat)
    by (vm_compute; reflexivity).
  split; [exact E|]. split; [exact I|]. split; [exact C|].
  exact (fraud_bins_right_closed five_frauds five_frauds_bins 40 7 E I C).
Defined.

(** X13.  When [fraud_analysis] builds its bins the labels of the bars are
    pairwise distinct and in edge order, the count of bar [i] is the number of
    fraud amounts with category [i], and every bar is annotated with its own
    count. *)
Theorem fraud_bars_annotated (df : DataFrame) (b : FraudBins) :
  fraud_bins df = Ok b ->
  NoDup (keys (fb_counts b))
  /\ keys (fb_counts b) = map label_text (fb_labels b)
  /\ map snd (fb_counts b)
     = map (code_count (map (bin_code (fb_edges b)) (fb_fraud b)))
           (seq 0 (length (fb_labels b)))
  /\ fb_texts b = map (fun p => Some (snd p)) (fb_counts b).
Proof.
  intro E. destruct (fraud_bins_ok df b E)
    as (fr & v & _ & _ & _ & _ & _ & _ & D & C & T).
  assert (K : keys (fb_counts b) = map label_text (fb_labels b))
    by (rewrite C; apply value_counts_keys).
  assert (N : NoDup (keys (fb_counts b))) by (rewrite K; now apply has_dup_nodup).
  split; [exact N|]. split; [exact K|]. split.
  - rewrite C. unfold value_counts. rewrite map_map. cbn [snd].
    rewrite <- (length_map label_text (fb_labels b)).
    generalize (map label_text (fb_labels b)). intro cats. generalize 0%nat.
    induction cats as [|c t IH]; intro a; simpl; [reflexivity|]. now rewrite IH.
  - rewrite T. unfold keys. rewrite map_map. apply map_ext_in.
    intros [k n] I. cbn [fst snd]. now apply lookup_in.
Qed.

Lemma fraud_bars_annotated_witness :
  fraud_bins five_frauds = Ok five_frauds_bins
  /\ NoDup (keys (fb_counts five_frauds_bins))
  /\ keys (fb_counts five_frauds_bins) = map label_text (fb_labels five_frauds_bins)
  /\ map snd (fb_counts five_frauds_bins)
     = map (code_count (map (bin_code (fb_edges five_frauds_bins))
                            (fb_fraud five_frauds_bins)))
           (seq 0 (length (fb_labels five_frauds_bins)))
  /\ fb_texts five_frauds_bins
     = map (fun p => Some (snd p)) (fb_counts five_frauds_bins).
Proof.
  split; [vm_compute; reflexivity|].
  apply (fraud_bars_annotated five_frauds five_frauds_bins).
  vm_compute. reflexivity.
Defined.

(** ** Where the operations write *)

Lemma add_canvas_stdout (w : World) (ds : list Draw) :
  stdout (add_canvas w ds) = stdout w.
Proof. reflexivity. Qed.

(** X14.  The three reporting operations ([basic_overview],
    [summary_statistics], [missing_values]) make no call on the graphics
    context, and the seven plotting operations print nothing, whether they
    return or raise. *)
Theorem output_channels `{Primitives} (o : Op) (w : World) :
  if is_text_op o
  then canvas (snd (run o w)) = canvas w
  else stdout (snd (run o w)) = stdout w.
Proof.
  destruct o; cbn [is_text_op run]; try reflexivity.
  - rewrite numerical_distribution_run. cbv zeta.
    destruct (length (keys (get_numeric_data (data (self w))))) as [|[|m]];
      reflexivity.
  - rewrite describe_skewness_run. reflexivity.
  - rewrite categorical_distribution_run. cbv zeta.
    destruct (loop_idx (data (self w)) 0 columns_of_interest None) as [[i|]|e];
      reflexivity.
  - rewrite count_outliers_run. reflexivity.
  - rewrite fraud_analysis_run.
    destruct (fraud_bins (data (self w))); reflexivity.
Qed.

(** ** Rounding to three decimals *)




(** ** The markers of [numerical_distribution] *)




(** ** The span of the bins *)

Lemma linspace10_levels : Forall (fun p : Q => 0 <= p /\ p <= 1) (linspace 10).
Proof.
  unfold linspace. simpl. repeat constructor; vm_compute; discriminate.
Qed.

Lemma quantile_within (p : Q) (x : list f64) :
  0 <= p -> p <= 1 -> dropna x <> [] ->
  exists q : Q,
    quantile p x = Some q
    /\ nth 0 (sort (dropna x)) 0 <= q
    /\ q <= nth (length (sort (dropna x)) - 1) (sort (dropna x)) 0.
Proof.
  intros P0 P1 Ne. unfold quantile. set (s := sort (dropna x)).
  assert (Ns : s <> []).
  { intro E. apply Ne, length_zero_iff_nil.
    rewrite <- (sort_length (dropna x)). fold s. now rewrite E. }
  destruct (interpolate_bounds p s P0 P1 (sort_sorted _) Ns) as (q & E & A & B).
  cbv zeta in A, B.
  pose proof (floor_index (length s - 1) p P0 P1) as [_ Hk]. cbv zeta in Hk.
  set (k := Z.to_nat (Qfloor (inject_Z (Z.of_nat (length s - 1)) * p))) in *.
  assert (Ls : (0 < length s)%nat) by (destruct s; [congruence | simpl; lia]).
  pose proof (sorted_nth_mono Q Qle Qle_refl s (sort_sorted _)) as Mono.
  exists q. split; [exact E|]. split.
  - eapply Qle_trans; [|exact A]. apply Mono; lia.
  - eapply Qle_trans; [exact B|]. apply Mono; lia.
Qed.

Lemma sorted_last {A} (R : A -> A -> Prop) (l : list A) (d : A) :
  StronglySorted R l ->
  forall x, In x l -> x = last l d \/ R x (last l d).
Proof.
  induction 1 as [|a t St IH Ha]; intros x Hx; [contradiction|].
  destruct t as [|b t'].
  - destruct Hx as [->|[]]. now left.
  - change (last (a :: b :: t') d) with (last (b :: t') d).
    destruct Hx as [->|Hx]; [|now apply IH].
    right. rewrite Forall_forall in Ha. apply Ha.
    destruct (IH b (or_introl eq_refl)) as [E|_].
    + rewrite <- E. now left.
    + clear. generalize b. induction t' as [|c t'' IHt]; intro b0; simpl.
      * now left.
      * right. apply IHt.
Qed.

Lemma last_in {A} (l : list A) (d : A) : l <> [] -> In (last l d) l.
Proof.
  induction l as [|a t IH]; intro Ne; [congruence|].
  destruct t as [|b t']; [now left|].
  right. apply IH. discriminate.
Qed.

(** X17.  When [fraud_analysis] builds its bins and some fraud amount is
    present, the first edge is the smallest and the last edge the largest
    present fraud amount: the bins span exactly the range of the amounts. *)
Theorem fraud_edges_span (df : DataFrame) (b : FraudBins) :
  fraud_bins df = Ok b ->
  dropna (fb_fraud b) <> [] ->
  exists lo hi : Q,
    hd NaN (fb_edges b) = Some lo
    /\ last (fb_edges b) NaN = Some hi
    /\ (forall q : Q, In (Some q) (fb_fraud b) -> lo <= q /\ q <= hi)
    /\ (exists q : Q, In (Some q) (fb_fraud b) /\ q == lo)
    /\ (exists q : Q, In (Some q) (fb_fraud b) /\ q == hi).
Proof.
  intros E Ne.
  destruct (fraud_bins_ok df b E) as (fr & v & _ & _ & _ & _ & Ed & _).
  set (x := fb_fraud b) in *. set (s := sort (dropna x)).
  assert (Ls : (0 < length s)%nat).
  { unfold s. rewrite sort_length. destruct (dropna x); [congruence | simpl; lia]. }
  assert (InS : forall q, In q s <-> In (Some q) x).
  { intro q. rewrite <- in_dropna. split; intro H.
    - apply (Permutation_in _ (Permutation_sym (sort_perm _))). exact H.
    - apply (Permutation_in _ (sort_perm _)). exact H. }
  destruct (quantile_min (inject_Z (Z.of_nat 0) / inject_Z (Z.of_nat 10)) x)
    as (h & Eh & Hh); [reflexivity | exact Ne |]. fold s in Hh.
  destruct (quantile_within (inject_Z (Z.of_nat 10) / inject_Z (Z.of_nat 10)) x)
    as (m & Em & _ & Mu); [vm_compute; discriminate | vm_compute; discriminate
                          | exact Ne |]. fold s in Mu.
  destruct (quantile_max (inject_Z (Z.of_nat 10) / inject_Z (Z.of_nat 10)) x)
    as (m' & Em' & Ml); [reflexivity | exact Ne |]. fold s in Ml.
  rewrite Em in Em'. inversion Em'; subst m'. clear Em'.
  set (mx := nth (length s - 1) s 0) in *.
  assert (Im : In (Some m) (decile_edges x)).
  { rewrite <- Em. unfold decile_edges. apply (in_map (fun p => quantile p x)).
    unfold linspace. simpl. do 10 right. left. reflexivity. }
  destruct (unique_covers _ _ Im) as (e & Ie & Ee). rewrite <- Ed in Ie.
  destruct e as [m1|]; [|discriminate]. simpl in Ee. apply Qeq_bool_eq in Ee.
  pose proof (qcut_edges_strict x) as St. rewrite <- Ed in St.
  assert (Nl : fb_edges b <> []) by (intro Z; rewrite Z in Ie; contradiction).
  pose proof (last_in (fb_edges b) NaN Nl) as Il.
  assert (Il' : In (last (fb_edges b) NaN) (decile_edges x))
    by (apply unique_incl; rewrite <- Ed; exact Il).
  unfold decile_edges in Il'. apply in_map_iff in Il'.
  destruct Il' as (p & Ep & Hp).
  pose proof linspace10_levels as Lv. rewrite Forall_forall in Lv.
  destruct (Lv p Hp) as [P0 P1].
  destruct (quantile_within p x P0 P1 Ne) as (hi & Ehi & _ & Hu). fold s mx in Hu.
  rewrite Ehi in Ep.
  assert (Hl : m1 <= hi).
  { destruct (sorted_last strictly_below (fb_edges b) NaN St (Some m1) Ie) as [Eq|[L _]].
    - rewrite <- Ep in Eq. inversion Eq. apply Qle_refl.
    - rewrite <- Ep in L. exact L. }
  assert (Hm : hi == mx) by (apply Qle_antisym; lra).
  exists h, hi. split; [rewrite Ed, unique_hd; unfold decile_edges; exact Eh|].
  split; [now symmetry|]. split; [|split].
  - intros q Hq. apply InS in Hq.
    destruct (sorted_extremes s q (sort_sorted _) Hq) as [A B]. fold mx in B.
    rewrite Hh, Hm. auto.
  - exists (nth 0 s 0). split; [apply InS, nth_In; lia | now symmetry].
  - exists mx. split; [apply InS, nth_In; lia | now symmetry].
Qed.

Lemma fraud_edges_span_witness :
  fraud_bins five_frauds = Ok five_frauds_bins
  /\ dropna (fb_fraud five_frauds_bins) <> []
  /\ exists lo hi : Q,
       hd NaN (fb_edges five_frauds_bins) = Some lo
       /\ last (fb_edges five_frauds_bins) NaN = Some hi
       /\ (forall q : Q, In (Some q) (fb_fraud five_frauds_bins) -> lo <= q /\ q <= hi)
       /\ (exists q : Q, In (Some q) (fb_fraud five_frauds_bins) /\ q == lo)
       /\ (exists q : Q, In (Some q) (fb_fraud five_frauds_bins) /\ q == hi).
Proof.
  assert (E : fraud_bins five_frauds = Ok five_frauds_bins)
    by (vm_compute; reflexivity).
  assert (N : dropna (fb_fraud five_frauds_bins) <> [])
    by (vm_compute; discriminate).
  split; [exact E|]. split; [exact N|].
  exact (fraud_edges_span five_frauds five_frauds_bins E N).
Defined.
